(** * hubploy: the LocalImage build-decision and cache-probing engine

    A shallow embedding of [hubploy/config.py] (class [LocalImage]) and
    the properties its specification states about it.

    The class talks to three collaborators that live outside the file:
    [gitutils] (version-control history), the docker client (registry
    and daemon) and repo2docker (the build engine).  They are gathered
    in a record [World]; every call to them is written to a trace, so
    that the order and the arguments of the calls can be stated.

    Python exceptions are modelled by an outcome type with an explicit
    [Raise]; the mutable pieces ([self], the class attribute [_docker],
    the trace) are threaded through a small state-and-exception monad in
    which a raise keeps the state reached so far, as in Python.

    The methods come twice: first with a [docker.from_env()] that
    returns, then, in [Daemon], with one that may raise on any call;
    [get_config] is given for a config file that parses to a mapping
    and, in [Document], for any YAML document. *)

From Stdlib Require Import String Ascii ZArith List Bool Lia.
Import ListNotations.

Local Open Scope string_scope.
Local Open Scope Z_scope.

(** ** Outcomes and exceptions *)

Inductive outcome (E A : Type) : Type :=
| Return (a : A)
| Raise (e : E).

Arguments Return {E A} a.
Arguments Raise {E A} e.

(** The exception classes of [docker.errors] the code names, with the
    base class [DockerException]; [ConnectionError] stands for any
    exception of the client that is not a docker exception (network
    failures of the HTTP layer). *)
Module errors.

Inductive cls : Type :=
| ImageNotFound
| NotFound
| APIError
| DockerException
| ConnectionError.

Definition cls_eqb (a b : cls) : bool :=
  match a, b with
  | ImageNotFound, ImageNotFound
  | NotFound, NotFound
  | APIError, APIError
  | DockerException, DockerException
  | ConnectionError, ConnectionError => true
  | _, _ => false
  end.

(** The direct base class: ImageNotFound(NotFound), NotFound(APIError),
    APIError(DockerException). *)
Definition base (c : cls) : option cls :=
  match c with
  | ImageNotFound => Some NotFound
  | NotFound => Some APIError
  | APIError => Some DockerException
  | DockerException => None
  | ConnectionError => None
  end.

(** [issubclass c k], following [base] upwards (the hierarchy has
    depth four). *)
Fixpoint issubclass_fuel (fuel : nat) (c k : cls) : bool :=
  cls_eqb c k ||
  match fuel with
  | O => false
  | S fuel' =>
      match base c with
      | Some b => issubclass_fuel fuel' b k
      | None => false
      end
  end.

Definition issubclass : cls -> cls -> bool := issubclass_fuel 4.

(** A raised docker exception: its class and its [explanation], a
    [str] as the call [e.explanation.startswith] takes it to be. *)
Record t : Type := mk { class_of : cls; explanation : string }.

Definition isinstance (e : t) (k : cls) : bool := issubclass (class_of e) k.

End errors.

(** Everything a method of [LocalImage] can raise: the [ValueError] of
    [needs_building] itself, what the docker client raised, and a
    failure of the build engine. *)
Inductive exn : Type :=
| ValueError (msg : string)
| DockerError (e : errors.t)
| BuildEngineError (msg : string).

Definition result (A : Type) : Type := outcome exn A.

(** ** The objects *)

(** The attributes of the [Repo2Docker] object the code sets;
    [cache_from] is the engine's list of cache-source image specs,
    empty on a new object. *)
Record Repo2Docker : Type := mkRepo2Docker {
  subdir : string;
  output_image_spec : string;
  user_id : Z;
  user_name : string;
  target_repo_dir : string;
  cache_from : list string
}.

Definition Repo2Docker_new : Repo2Docker :=
  {| subdir := ""; output_image_spec := ""; user_id := 0; user_name := "";
     target_repo_dir := ""; cache_from := [] |}.

Record LocalImage : Type := mkLocalImage {
  name : string;
  tag : string;
  path : string;
  helm_substitution_path : string;
  image_spec : string;
  r2d : Repo2Docker
}.

(** A docker client object is identified by the rank of the
    [docker.from_env()] call that made it. *)
Definition DockerClient : Type := nat.

(** What [get_registry_data] returns on success. *)
Definition RegistryData : Type := string.

(** ** The collaborators *)

Inductive event : Type :=
| ev_last_modified_commit (path : string) (n : option Z)
| ev_path_touched (path : string) (commit_range : string)
| ev_from_env (client : DockerClient)
| ev_get_registry_data (client : DockerClient) (spec : string)
| ev_pull (client : DockerClient) (spec : string)
| ev_print (msg : string)
| ev_r2d_initialize (r : Repo2Docker)
| ev_r2d_build (r : Repo2Docker)
| ev_r2d_push_image (r : Repo2Docker).

(** Modelled from the spec: the module [gitutils] is not part of the
    sources at hand.  [last_modified_commit path n] is the history
    oracle [lastCommitTouching]: the revision id of the commit at the
    given offset among those touching [path], the empty string when
    there is none; [n = None] is the call without an offset, the most
    recent commit.  [path_touched path range] is [wasTouchedInRange].
    The docker client and the build engine are external libraries: a
    registry call returns or raises a docker exception, a build or push
    returns or fails with a message. *)
Record World : Type := mkWorld {
  last_modified_commit : string -> option Z -> string;
  path_touched : string -> string -> bool;
  get_registry_data : string -> outcome errors.t (option RegistryData);
  pull : string -> outcome errors.t unit;
  r2d_build : Repo2Docker -> outcome string unit;
  r2d_push_image : Repo2Docker -> outcome string unit
}.

(** ** Process state and the monad *)

(** The state outside the instance: the class attribute
    [LocalImage._docker] ([None] while [hasattr] is false), the number
    of clients made by [docker.from_env()], and the calls made so far,
    oldest first. *)
Record Process : Type := mkProcess {
  _docker : option DockerClient;
  from_env_calls : nat;
  trace : list event
}.

Record State : Type := mkState {
  self : LocalImage;
  proc : Process
}.

Definition M (A : Type) : Type := State -> result A * State.

Definition ret {A} (a : A) : M A := fun s => (Return a, s).

Definition bind {A B} (m : M A) (k : A -> M B) : M B :=
  fun s =>
    match m s with
    | (Return a, s') => k a s'
    | (Raise e, s') => (Raise e, s')
    end.

Definition raise {A} (e : exn) : M A := fun s => (Raise e, s).

(** [try: m except e: h e]; a handler re-raises with [raise e]. *)
Definition try_except {A} (m : M A) (h : exn -> M A) : M A :=
  fun s =>
    match m s with
    | (Return a, s') => (Return a, s')
    | (Raise e, s') => h e s'
    end.

Declare Scope monad_scope.
Delimit Scope monad_scope with monad.
Notation "x <- m ;; k" := (bind m (fun x => k))
  (at level 61, m at next level, right associativity) : monad_scope.
Notation "m ;; k" := (bind m (fun _ => k))
  (at level 61, right associativity) : monad_scope.
Local Open Scope monad_scope.

Definition get_self : M LocalImage := fun s => (Return (self s), s).

Definition log (ev : event) (p : Process) : Process :=
  {| _docker := _docker p; from_env_calls := from_env_calls p;
     trace := trace p ++ [ev] |}.

Definition emit (ev : event) : M unit :=
  fun s => (Return tt, {| self := self s; proc := log ev (proc s) |}).

(** Python's truth value of a [str] and of an optional [str]. *)
Definition str_truthy (s : string) : bool := negb (s =? "")%string.

Definition truthy (o : option string) : bool :=
  match o with
  | Some s => str_truthy s
  | None => false
  end.

(** [range(lo, hi)] *)
Definition range (lo hi : Z) : list Z :=
  map (fun k => lo + Z.of_nat k) (seq 0 (Z.to_nat (hi - lo))).

Section LocalImage.

Variable W : World.

(** *** Calls to the collaborators *)

Definition gitutils_last_modified_commit (p : string) (n : option Z) : M string :=
  emit (ev_last_modified_commit p n) ;;
  ret (last_modified_commit W p n).

Definition gitutils_path_touched (p : string) (commit_range : string) : M bool :=
  emit (ev_path_touched p commit_range) ;;
  ret (path_touched W p commit_range).

Definition call_docker {A} (o : outcome errors.t A) : M A :=
  match o with
  | Return a => ret a
  | Raise e => raise (DockerError e)
  end.

Definition call_engine {A} (o : outcome string A) : M A :=
  match o with
  | Return a => ret a
  | Raise msg => raise (BuildEngineError msg)
  end.

Definition images_get_registry_data (c : DockerClient) (spec : string)
  : M (option RegistryData) :=
  emit (ev_get_registry_data c spec) ;;
  call_docker (get_registry_data W spec).

Definition images_pull (c : DockerClient) (spec : string) : M unit :=
  emit (ev_pull c spec) ;;
  call_docker (pull W spec).

(** [docker.from_env()]: a new client object. *)
Definition docker_from_env : M DockerClient :=
  fun s =>
    let c := from_env_calls (proc s) in
    (Return c,
     {| self := self s;
        proc := {| _docker := _docker (proc s);
                   from_env_calls := S c;
                   trace := trace (proc s) ++ [ev_from_env c] |} |}).

Definition set_class_docker (c : DockerClient) : M unit :=
  fun s =>
    (Return tt,
     {| self := self s;
        proc := {| _docker := Some c;
                   from_env_calls := from_env_calls (proc s);
                   trace := trace (proc s) |} |}).

(** *** [LocalImage.__init__] *)

Definition LocalImage_init (name0 path0 helm_substitution_path0 : string)
           (p : Process) : LocalImage * Process :=
  let tag0 := last_modified_commit W path0 None in
  let p1 := log (ev_last_modified_commit path0 None) p in
  let tag1 := if str_truthy tag0 then tag0 else "latest" in
  let image_spec0 := name0 ++ ":" ++ tag1 in
  let r :=
    {| subdir := path0;
       output_image_spec := image_spec0;
       user_id := 1000;
       user_name := "jovyan";
       target_repo_dir := "/srv/repo";
       cache_from := cache_from Repo2Docker_new |} in
  ({| name := name0; tag := tag1; path := path0;
      helm_substitution_path := helm_substitution_path0;
      image_spec := image_spec0; r2d := r |},
   log (ev_r2d_initialize r) p1).

(** The default of [helm_substitution_path]. *)
Definition default_helm_substitution_path : string :=
  "jupyterhub.singleuser.image".

(** *** The [docker] property *)

Definition docker : M DockerClient :=
  fun s =>
    match _docker (proc s) with
    | None =>
        (c <- docker_from_env ;;
         set_class_docker c ;;
         ret c) s
    | Some c => (Return c, s)
    end.

(** *** [exists_in_registry] *)

Definition is_not_None {A} (o : option A) : bool :=
  match o with Some _ => true | None => false end.

Definition exists_in_registry : M bool :=
  try_except
    (me <- get_self ;;
     c <- docker ;;
     image_manifest <- images_get_registry_data c (image_spec me) ;;
     ret (is_not_None image_manifest))
    (fun e =>
       match e with
       | DockerError d =>
           if errors.isinstance d errors.ImageNotFound then ret false
           else if errors.isinstance d errors.APIError then
             if String.prefix "manifest unknown: " (errors.explanation d)
             then ret false
             else raise e
           else raise e
       | _ => raise e
       end).

(** *** [get_possible_parent_tags]

    A generator: the list of the computations it runs between two
    yields, one per value of [i]; nothing is run before the consumer
    asks for the next item. *)
Definition get_possible_parent_tags (n : Z) : list (M string) :=
  map (fun i => me <- get_self ;;
                gitutils_last_modified_commit (path me) (Some i))
      (range 1 n).

(** [list(generator)] *)
Fixpoint consume {A} (g : list (M A)) : M (list A) :=
  match g with
  | [] => ret []
  | next :: rest =>
      x <- next ;;
      xs <- consume rest ;;
      ret (x :: xs)
  end.

(** *** [fetch_parent_image] *)

(** What one turn of the loop body does: return from the function or
    fall through to the next item. *)
Inductive flow (A : Type) : Type :=
| Returned (a : A)
| Continue.
Arguments Returned {A} a.
Arguments Continue {A}.

Definition fetch_body (tag0 : string) : M (flow (option string)) :=
  me <- get_self ;;
  let parent_image_spec := name me ++ ":" ++ tag0 in
  try_except
    (emit (ev_print ("Trying to fetch parent image " ++ parent_image_spec)) ;;
     c <- docker ;;
     images_pull c parent_image_spec ;;
     ret (Returned (Some parent_image_spec)))
    (fun e =>
       match e with
       | DockerError d =>
           if errors.isinstance d errors.NotFound then ret Continue
           else raise e
       | _ => raise e
       end).

Fixpoint fetch_loop (g : list (M string)) : M (option string) :=
  match g with
  | [] => ret None
  | next :: rest =>
      tag0 <- next ;;
      f <- fetch_body tag0 ;;
      match f with
      | Returned v => ret v
      | Continue => fetch_loop rest
      end
  end.

Definition fetch_parent_image : M (option string) :=
  fetch_loop (get_possible_parent_tags 16).

(** *** [needs_building]

    The value is [Some b] for [return b]; [None] is the implicit
    [return None] at the end of the body. *)
Definition needs_building (check_registry : bool)
           (commit_range : option string) : M (option bool) :=
  if check_registry && truthy commit_range then
    raise (ValueError "Only one of check_registry or commit_range can be set")
  else if negb (check_registry || truthy commit_range) then
    raise (ValueError "One of check_registry or commit_range must be set")
  else if check_registry then
    b <- exists_in_registry ;;
    ret (Some (negb b))
  else
    match commit_range with
    | Some cr =>
        if str_truthy cr then
          me <- get_self ;;
          b <- gitutils_path_touched (path me) cr ;;
          ret (Some b)
        else ret None
    | None => ret None
    end.

(** *** [build] and [push] *)

(** [self.r2d.cache_from = l]: the one attribute a method assigns after
    construction. *)
Definition with_cache_from (me : LocalImage) (l : list string) : LocalImage :=
  {| name := name me; tag := tag me; path := path me;
     helm_substitution_path := helm_substitution_path me;
     image_spec := image_spec me;
     r2d := {| subdir := subdir (r2d me);
               output_image_spec := output_image_spec (r2d me);
               user_id := user_id (r2d me);
               user_name := user_name (r2d me);
               target_repo_dir := target_repo_dir (r2d me);
               cache_from := l |} |}.

Definition set_r2d_cache_from (l : list string) : M unit :=
  fun s => (Return tt, {| self := with_cache_from (self s) l; proc := proc s |}).

Definition self_r2d_build : M unit :=
  me <- get_self ;;
  emit (ev_r2d_build (r2d me)) ;;
  call_engine (r2d_build W (r2d me)).

Definition self_r2d_push_image : M unit :=
  me <- get_self ;;
  emit (ev_r2d_push_image (r2d me)) ;;
  call_engine (r2d_push_image W (r2d me)).

Definition build : M unit :=
  parent_image_spec <- fetch_parent_image ;;
  (if truthy parent_image_spec then
     match parent_image_spec with
     | Some spec => set_r2d_cache_from [spec]
     | None => ret tt
     end
   else ret tt) ;;
  self_r2d_build.

Definition push : M unit := self_r2d_push_image.

End LocalImage.


Arguments Returned {A} a.
Arguments Continue {A}.

(** ** The operations of an instance, and runs of them *)

Inductive operation : Type :=
| op_docker
| op_exists_in_registry
| op_get_possible_parent_tags (n : Z)
| op_fetch_parent_image
| op_needs_building (check_registry : bool) (commit_range : option string)
| op_build
| op_push.

Definition discard {A} (m : M A) : M unit := bind m (fun _ => ret tt).

Definition run_op (W : World) (o : operation) : M unit :=
  match o with
  | op_docker => discard docker
  | op_exists_in_registry => discard (exists_in_registry W)
  | op_get_possible_parent_tags n =>
      discard (consume (get_possible_parent_tags W n))
  | op_fetch_parent_image => discard (fetch_parent_image W)
  | op_needs_building b cr => discard (needs_building W b cr)
  | op_build => build W
  | op_push => push W
  end.

(** The caller goes on after an operation whether it returned or
    raised. *)
Fixpoint run_ops (W : World) (ops : list operation) (s : State) : State :=
  match ops with
  | [] => s
  | o :: rest => run_ops W rest (snd (run_op W o s))
  end.

(** The instance [LocalImage(name, path, helm_substitution_path)] in
    the process [p]. *)
Definition construct (W : World) (name0 path0 hsp : string) (p : Process) : State :=
  {| self := fst (LocalImage_init W name0 path0 hsp p);
     proc := snd (LocalImage_init W name0 path0 hsp p) |}.

(** A process in which nothing has happened yet. *)
Definition fresh_process : Process :=
  {| _docker := None; from_env_calls := 0; trace := [] |}.

(** ** Reading the trace *)

Definition pulled (t : list event) : list string :=
  flat_map (fun ev => match ev with ev_pull _ spec => [spec] | _ => [] end) t.

Definition offsets_asked (t : list event) : list (option Z) :=
  flat_map (fun ev => match ev with
                      | ev_last_modified_commit _ n => [n]
                      | _ => []
                      end) t.

Definition registry_calls (t : list event) : list event :=
  filter (fun ev => match ev with
                    | ev_from_env _ | ev_get_registry_data _ _ | ev_pull _ _ => true
                    | _ => false
                    end) t.

Definition builds (t : list event) : list Repo2Docker :=
  flat_map (fun ev => match ev with ev_r2d_build r => [r] | _ => [] end) t.

(** ** What the registry answers *)

(** The manifest is absent: the call raised [ImageNotFound], or an
    [APIError] whose explanation starts with the registry's
    manifest-unknown text, or it returned no manifest object. *)
Definition manifest_absent (o : outcome errors.t (option RegistryData)) : bool :=
  match o with
  | Return None => true
  | Return (Some _) => false
  | Raise e =>
      errors.isinstance e errors.ImageNotFound
      || (errors.isinstance e errors.APIError
          && String.prefix "manifest unknown: " (errors.explanation e))
  end.

Definition manifest_resolves (o : outcome errors.t (option RegistryData)) : bool :=
  match o with
  | Return (Some _) => true
  | _ => false
  end.

Definition pull_not_found (W : World) (spec : string) : bool :=
  match pull W spec with
  | Raise e => errors.isinstance e errors.NotFound
  | Return _ => false
  end.

Definition is_ValueError {A} (r : result A) : bool :=
  match r with
  | Raise (ValueError _) => true
  | _ => false
  end.

(** The candidate spec of the probe at offset [i]. *)
Definition candidate (W : World) (me : LocalImage) (i : Z) : string :=
  name me ++ ":" ++ last_modified_commit W (path me) (Some i).

(** ** The process after an access to the [docker] property *)

Definition client_of (p : Process) : DockerClient :=
  match _docker p with
  | Some c => c
  | None => from_env_calls p
  end.

Definition ensure_docker (p : Process) : Process :=
  match _docker p with
  | Some _ => p
  | None =>
      {| _docker := Some (from_env_calls p);
         from_env_calls := S (from_env_calls p);
         trace := trace p ++ [ev_from_env (from_env_calls p)] |}
  end.

(** The process after one turn of the probe loop at offset [i]. *)
Definition attempt (W : World) (me : LocalImage) (p : Process) (i : Z) : Process :=
  let p1 := log (ev_last_modified_commit (path me) (Some i)) p in
  let p2 := log (ev_print ("Trying to fetch parent image " ++ candidate W me i)) p1 in
  log (ev_pull (client_of p2) (candidate W me i)) (ensure_docker p2).

Definition attempts (W : World) (me : LocalImage) (offs : list Z) (p : Process) : Process :=
  fold_left (attempt W me) offs p.

(** The generator's items for the given offsets. *)
Definition tags_at (W : World) (offs : list Z) : list (M string) :=
  map (fun i => me <- get_self ;;
                gitutils_last_modified_commit W (path me) (Some i)) offs.

Definition world0 : World :=
  {| last_modified_commit := fun _ _ => "";
     path_touched := fun _ _ => false;
     get_registry_data := fun _ => Raise (errors.mk errors.ImageNotFound "");
     pull := fun _ => Raise (errors.mk errors.NotFound "");
     r2d_build := fun _ => Return tt;
     r2d_push_image := fun _ => Return tt |}.

Definition state0 : State :=
  construct world0 "registry.example/hub" "/repo/deployments/hub/image"
            default_helm_substitution_path fresh_process.

Definition world_touched : World :=
  {| last_modified_commit := fun _ _ => "0a1b2c3";
     path_touched := fun p r => (r =? "main...HEAD")%string;
     get_registry_data := fun _ => Return (Some "sha256:feed");
     pull := fun _ => Return tt;
     r2d_build := fun _ => Return tt;
     r2d_push_image := fun _ => Return tt |}.

(** Three revisions touch the path; the registry holds none of the
    older images and refuses the third with an authorization error. *)
Definition world_denied : World :=
  {| last_modified_commit := fun _ n =>
       match n with
       | None => "head000"
       | Some 1 => "aaa1111"
       | Some 2 => "bbb2222"
       | Some 3 => "ccc3333"
       | Some _ => ""
       end;
     path_touched := fun _ _ => true;
     get_registry_data := fun _ => Raise (errors.mk errors.ImageNotFound "no such image");
     pull := fun spec =>
       if (spec =? "hub:ccc3333")%string
       then Raise (errors.mk errors.APIError "unauthorized: authentication required")
       else Raise (errors.mk errors.ImageNotFound "manifest unknown");
     r2d_build := fun _ => Return tt;
     r2d_push_image := fun _ => Return tt |}.

Definition state_denied : State :=
  construct world_denied "hub" "/repo/image" default_helm_substitution_path
            fresh_process.

(** The registry holds exactly the image of the sixteenth older
    revision. *)
Definition world_sixteenth : World :=
  {| last_modified_commit := fun _ n =>
       match n with
       | None => "head000"
       | Some 16 => "rev0016"
       | Some _ => "rev00xx"
       end;
     path_touched := fun _ _ => true;
     get_registry_data := fun _ => Raise (errors.mk errors.ImageNotFound "no such image");
     pull := fun spec =>
       if (spec =? "hub:rev0016")%string then Return tt
       else Raise (errors.mk errors.ImageNotFound "no such image");
     r2d_build := fun _ => Return tt;
     r2d_push_image := fun _ => Return tt |}.

Definition state_sixteenth : State :=
  construct world_sixteenth "hub" "/repo/image" default_helm_substitution_path
            fresh_process.

(** The path has one older revision only; the registry holds an image
    under the tagless name. *)
Definition world_short_history : World :=
  {| last_modified_commit := fun _ n =>
       match n with
       | None => "head000"
       | Some 1 => "aaa1111"
       | Some _ => ""
       end;
     path_touched := fun _ _ => true;
     get_registry_data := fun _ => Raise (errors.mk errors.ImageNotFound "no such image");
     pull := fun spec =>
       if (spec =? "hub:")%string then Return tt
       else Raise (errors.mk errors.NotFound "no such image");
     r2d_build := fun _ => Return tt;
     r2d_push_image := fun _ => Return tt |}.

Definition state_short_history : State :=
  construct world_short_history "hub" "/repo/image"
            default_helm_substitution_path fresh_process.

(** The cache hint of an instance is sound for a world: it is empty or
    the one spec the probe returns for the instance's name and path. *)
Definition hint_ok (W : World) (me : LocalImage) : Prop :=
  cache_from (r2d me) = []
  \/ exists spec,
      cache_from (r2d me) = [spec]
      /\ forall s', name (self s') = name me -> path (self s') = path me ->
                    fst (fetch_parent_image W s') = Return (Some spec).

(** A registry that answers every manifest query with the given
    exception. *)
Definition world_raising (e : errors.t) : World :=
  {| last_modified_commit := fun _ _ => "0a1b2c3";
     path_touched := fun _ _ => false;
     get_registry_data := fun _ => Raise e;
     pull := fun _ => Raise e;
     r2d_build := fun _ => Return tt;
     r2d_push_image := fun _ => Return tt |}.

(** ** More readings of the trace *)

Definition pushes (t : list event) : list Repo2Docker :=
  flat_map (fun ev => match ev with ev_r2d_push_image r => [r] | _ => [] end) t.

(** The docker clients the calls of the trace were made on or, for
    [docker.from_env()], made. *)
Definition clients_used (t : list event) : list DockerClient :=
  flat_map (fun ev => match ev with
                      | ev_from_env c => [c]
                      | ev_get_registry_data c _ => [c]
                      | ev_pull c _ => [c]
                      | _ => []
                      end) t.

(** The clients [docker.from_env()] made. *)
Definition clients_made (t : list event) : list DockerClient :=
  flat_map (fun ev => match ev with ev_from_env c => [c] | _ => [] end) t.

(** ** [get_config]

    The parsed [hubploy.yaml], by the keys the function reads: a key
    that is absent from a mapping is [None].  The entries of the
    [images] list are mappings from [str] to [str], kept as association
    lists in the order of the file; distinct entries are distinct
    objects. *)

Definition dict : Type := list (string * string).

(** [d\[k\]], [None] for a missing key. *)
Fixpoint dict_get (k : string) (d : dict) : option string :=
  match d with
  | [] => None
  | (k', v) :: rest => if (k' =? k)%string then Some v else dict_get k rest
  end.

(** [d\[k\] = v] *)
Fixpoint dict_set (k v : string) (d : dict) : dict :=
  match d with
  | [] => [(k, v)]
  | (k', v') :: rest =>
      if (k' =? k)%string then (k, v) :: rest else (k', v') :: dict_set k v rest
  end.

Record ImagesConfig : Type := mkImagesConfig {
  image_name : option string;
  image_config_path : option string;
  images : option (list dict)
}.

Record Config : Type := mkConfig {
  config_images : option ImagesConfig
}.

(** What [get_config] returns: the empty dict, or the config as it was
    parsed together with the instances that now stand at
    [config\['images'\]\['images'\]]. *)
Inductive loaded : Type :=
| EmptyDict
| Loaded (c : Config) (instances : list LocalImage).

Inductive config_exn : Type :=
| KeyError (key : string)
| TypeError (msg : string)
| UnboundLocalError (var : string).

(** The file system and [os.path], as far as [get_config] uses them;
    [yaml_load path] is the parsed content of the file at [path]. *)
Record OS : Type := mkOS {
  abspath : string -> string;
  join : string -> string -> string;
  path_exists : string -> bool;
  yaml_load : string -> Config
}.

Definition deployment_path_of (os : OS) (deployment : string) : string :=
  abspath os (join os "deployments" deployment).

Definition config_path_of (os : OS) (deployment : string) : string :=
  join os (deployment_path_of os deployment) "hubploy.yaml".

(** The [if 'images' in config] block: the local variable [images], which
    stays unbound when the key is absent and is then read by the [for]
    statement. *)
Definition select_images (config : Config) : outcome config_exn (list dict) :=
  match config_images config with
  | Some images_config =>
      match image_name images_config with
      | Some n =>
          match image_config_path images_config with
          | Some h =>
              Return [[("name", n); ("path", "image");
                       ("helm_substitution_path", h)]]
          | None => Raise (KeyError "image_config_path")
          end
      | None =>
          match images images_config with
          | Some l => Return l
          | None => Raise (KeyError "images")
          end
      end
  | None => Raise (UnboundLocalError "images")
  end.

(** [for image in images: image\['path'\] = os.path.join(deployment_path,
    image\['path'\])] *)
Fixpoint normalize_paths (os : OS) (deployment_path : string) (l : list dict)
  : outcome config_exn (list dict) :=
  match l with
  | [] => Return []
  | image :: rest =>
      match dict_get "path" image with
      | None => Raise (KeyError "path")
      | Some p =>
          match normalize_paths os deployment_path rest with
          | Return rest' =>
              Return (dict_set "path" (join os deployment_path p) image :: rest')
          | Raise e => Raise e
          end
      end
  end.

Definition is_parameter (k : string) : bool :=
  ((k =? "name") || (k =? "path") || (k =? "helm_substitution_path"))%string.

(** The binding of [LocalImage( **i )] to the parameters of [__init__]:
    [name] and [path] are required, [helm_substitution_path] has a
    default, any other keyword is refused; both refusals are a
    [TypeError], whose message is shortened here. *)
Definition bind_kwargs (i : dict) : outcome config_exn (string * string * string) :=
  if forallb (fun kv => is_parameter (fst kv)) i then
    match dict_get "name" i, dict_get "path" i with
    | Some n, Some p =>
        Return (n, p,
                match dict_get "helm_substitution_path" i with
                | Some h => h
                | None => default_helm_substitution_path
                end)
    | _, _ => Raise (TypeError "missing required argument")
    end
  else Raise (TypeError "unexpected keyword argument").

(** [\[LocalImage( **i ) for i in images\]] *)
Fixpoint construct_all (W : World) (l : list dict) (p : Process)
  : outcome config_exn (list LocalImage) * Process :=
  match l with
  | [] => (Return [], p)
  | i :: rest =>
      match bind_kwargs i with
      | Raise e => (Raise e, p)
      | Return (n, pa, h) =>
          let '(me, p1) := LocalImage_init W n pa h p in
          match construct_all W rest p1 with
          | (Return instances, p2) => (Return (me :: instances), p2)
          | (Raise e, p2) => (Raise e, p2)
          end
      end
  end.

Definition get_config (W : World) (os : OS) (deployment : string) (p : Process)
  : outcome config_exn loaded * Process :=
  let deployment_path := deployment_path_of os deployment in
  let config_path := config_path_of os deployment in
  if negb (path_exists os config_path) then (Return EmptyDict, p)
  else
    let config := yaml_load os config_path in
    match select_images config with
    | Raise e => (Raise e, p)
    | Return images0 =>
        match normalize_paths os deployment_path images0 with
        | Raise e => (Raise e, p)
        | Return images1 =>
            match construct_all W images1 p with
            | (Raise e, p') => (Raise e, p')
            | (Return instances, p') => (Return (Loaded config instances), p')
            end
        end
    end.

(** An entry [LocalImage( **i )] accepts once its path is set: only
    parameters of [__init__] as keys, [name] and [path] among them. *)
Definition valid_entry (i : dict) : bool :=
  forallb (fun kv => is_parameter (fst kv)) i
  && is_not_None (dict_get "name" i)
  && is_not_None (dict_get "path" i).

(** What the binding reads from an entry. *)
Definition entry_name (i : dict) : string :=
  match dict_get "name" i with Some n => n | None => "" end.

Definition entry_path (i : dict) : string :=
  match dict_get "path" i with Some q => q | None => "" end.

Definition entry_helm_substitution_path (i : dict) : string :=
  match dict_get "helm_substitution_path" i with
  | Some h => h
  | None => default_helm_substitution_path
  end.

Definition has_path (i : dict) : bool := is_not_None (dict_get "path" i).

(** A deployment directory with a config file in the list format, one
    in the older single-image format, and one without an [images] key. *)
Definition os_example (c : Config) : OS :=
  {| abspath := fun q => "/repo/" ++ q;
     join := fun a b => a ++ "/" ++ b;
     path_exists := fun q => (q =? "/repo/deployments/prod/hubploy.yaml")%string;
     yaml_load := fun _ => c |}.

Definition config_list : Config :=
  {| config_images :=
       Some {| image_name := None;
               image_config_path := None;
               images :=
                 Some [[("name", "hub/user"); ("path", "images/user")];
                       [("name", "hub/postgres"); ("path", "images/db");
                        ("helm_substitution_path", "db.image")]] |} |}.

Definition config_single : Config :=
  {| config_images :=
       Some {| image_name := Some "hub/user";
               image_config_path := Some "singleuser.image";
               images := Some [[("name", "ignored")]] |} |}.

Definition config_no_images : Config := {| config_images := None |}.

Definition config_no_path : Config :=
  {| config_images :=
       Some {| image_name := None;
               image_config_path := None;
               images :=
                 Some [[("name", "hub/user"); ("path", "images/user")];
                       [("name", "hub/postgres")]] |} |}.

Definition config_bad_key : Config :=
  {| config_images :=
       Some {| image_name := None;
               image_config_path := None;
               images :=
                 Some [[("name", "hub/user"); ("path", "images/user")];
                       [("name", "hub/postgres"); ("path", "images/db");
                        ("dockerfile", "Dockerfile.db")];
                       [("name", "hub/extra"); ("path", "images/extra")]] |} |}.

(** ** The daemon may refuse

    [docker.from_env()] can raise (the daemon is down, the environment
    is wrong).  The methods below are the methods above with that
    possibility: a daemon says, for each call of [docker.from_env()] in
    the process, whether it returns a client or raises.  With a daemon
    that always answers they are the methods above, and so they are on
    a class that holds a client already. *)
Module Daemon.

(** What the [k]-th call of [docker.from_env()] does: [None] when it
    returns a client, [Some e] when it raises [e]. *)
Definition t : Type := nat -> option errors.t.

Definition up : t := fun _ => None.

(** The process after a call of [docker.from_env()] that raised: the
    call is counted, no client was made and none is stored. *)
Definition refused (p : Process) : Process :=
  {| _docker := _docker p;
     from_env_calls := S (from_env_calls p);
     trace := trace p |}.

Section Methods.

Variable D : t.
Variable W : World.

Definition docker_from_env : M DockerClient :=
  fun s =>
    match D (from_env_calls (proc s)) with
    | None => docker_from_env s
    | Some e =>
        (Raise (DockerError e), {| self := self s; proc := refused (proc s) |})
    end.

Definition docker : M DockerClient :=
  fun s =>
    match _docker (proc s) with
    | None =>
        (c <- docker_from_env ;;
         set_class_docker c ;;
         ret c) s
    | Some c => (Return c, s)
    end.

Definition exists_in_registry : M bool :=
  try_except
    (me <- get_self ;;
     c <- docker ;;
     image_manifest <- images_get_registry_data W c (image_spec me) ;;
     ret (is_not_None image_manifest))
    (fun e =>
       match e with
       | DockerError d =>
           if errors.isinstance d errors.ImageNotFound then ret false
           else if errors.isinstance d errors.APIError then
             if String.prefix "manifest unknown: " (errors.explanation d)
             then ret false
             else raise e
           else raise e
       | _ => raise e
       end).

Definition fetch_body (tag0 : string) : M (flow (option string)) :=
  me <- get_self ;;
  let parent_image_spec := name me ++ ":" ++ tag0 in
  try_except
    (emit (ev_print ("Trying to fetch parent image " ++ parent_image_spec)) ;;
     c <- docker ;;
     images_pull W c parent_image_spec ;;
     ret (Returned (Some parent_image_spec)))
    (fun e =>
       match e with
       | DockerError d =>
           if errors.isinstance d errors.NotFound then ret Continue
           else raise e
       | _ => raise e
       end).

Fixpoint fetch_loop (g : list (M string)) : M (option string) :=
  match g with
  | [] => ret None
  | next :: rest =>
      tag0 <- next ;;
      f <- fetch_body tag0 ;;
      match f with
      | Returned v => ret v
      | Continue => fetch_loop rest
      end
  end.

Definition fetch_parent_image : M (option string) :=
  fetch_loop (get_possible_parent_tags W 16).

Definition needs_building (check_registry : bool)
           (commit_range : option string) : M (option bool) :=
  if check_registry && truthy commit_range then
    raise (ValueError "Only one of check_registry or commit_range can be set")
  else if negb (check_registry || truthy commit_range) then
    raise (ValueError "One of check_registry or commit_range must be set")
  else if check_registry then
    b <- exists_in_registry ;;
    ret (Some (negb b))
  else
    match commit_range with
    | Some cr =>
        if str_truthy cr then
          me <- get_self ;;
          b <- gitutils_path_touched W (path me) cr ;;
          ret (Some b)
        else ret None
    | None => ret None
    end.

Definition build : M unit :=
  parent_image_spec <- fetch_parent_image ;;
  (if truthy parent_image_spec then
     match parent_image_spec with
     | Some spec => set_r2d_cache_from [spec]
     | None => ret tt
     end
   else ret tt) ;;
  self_r2d_build W.

Definition run_op (o : operation) : M unit :=
  match o with
  | op_docker => discard docker
  | op_exists_in_registry => discard exists_in_registry
  | op_get_possible_parent_tags n =>
      discard (consume (get_possible_parent_tags W n))
  | op_fetch_parent_image => discard fetch_parent_image
  | op_needs_building b cr => discard (needs_building b cr)
  | op_build => build
  | op_push => push W
  end.

End Methods.

(** Operations on one instance, each in the world of its moment. *)
Fixpoint run_ops (D : t) (ops : list (World * operation)) (s : State) : State :=
  match ops with
  | [] => s
  | (W, o) :: rest => run_ops D rest (snd (run_op D W o s))
  end.

(** What a process does, instance by instance and world by world. *)
Inductive step : Type :=
| step_new (W : World) (name0 path0 hsp : string)
| step_op (W : World) (me : LocalImage) (o : operation).

Definition run_step (D : t) (st : step) (p : Process) : Process :=
  match st with
  | step_new W name0 path0 hsp => snd (LocalImage_init W name0 path0 hsp p)
  | step_op W me o => proc (snd (run_op D W o {| self := me; proc := p |}))
  end.

Definition run_steps (D : t) (steps : list step) (p : Process) : Process :=
  fold_left (fun q st => run_step D st q) steps p.

(** The [docker] property read from each of the instances in turn. *)
Fixpoint docker_accesses (D : t) (instances : list LocalImage) (p : Process)
  : list (result DockerClient) * Process :=
  match instances with
  | [] => ([], p)
  | me :: rest =>
      let '(r, s1) := docker D {| self := me; proc := p |} in
      let '(rs, p2) := docker_accesses D rest (proc s1) in
      (r :: rs, p2)
  end.

(** What reading the property does to the process, and what it gives. *)
Definition acquire (D : t) (p : Process) : outcome errors.t DockerClient * Process :=
  match _docker p with
  | Some c => (Return c, p)
  | None =>
      match D (from_env_calls p) with
      | None => (Return (from_env_calls p), ensure_docker p)
      | Some e => (Raise e, refused p)
      end
  end.

(** The process holds no client and has made no registry call, or it
    holds the one client it made and has made every registry call on
    it. *)
Definition one_client (p : Process) : Prop :=
  match _docker p with
  | None => clients_used (trace p) = []
  | Some c =>
      clients_made (trace p) = [c]
      /\ Forall (fun c' => c' = c) (clients_used (trace p))
  end.

End Daemon.

Definition is_build (o : operation) : bool :=
  match o with
  | op_build => true
  | _ => false
  end.

(** The daemon refuses the first call and answers from then on. *)
Definition daemon_late : Daemon.t :=
  fun k =>
    match k with
    | O => Some (errors.mk errors.DockerException "Error while fetching server API version")
    | S _ => None
    end.

(** An instance on a class that already holds a client. *)
Definition state_stored : State :=
  snd (docker state_short_history).

(** The calls of one turn of the probe loop at offset [i] on a class
    that holds the client [c]: the generator's question, the print and
    the pull. *)
Definition turn_events (W : World) (me : LocalImage) (c : DockerClient) (i : Z)
  : list event :=
  [ev_last_modified_commit (path me) (Some i);
   ev_print ("Trying to fetch parent image " ++ candidate W me i);
   ev_pull c (candidate W me i)].

(** ** The config file may be anything

    [yaml.load] gives a mapping for a config file as intended, but a
    YAML document can also be a sequence or a string, on which
    ['images' in config] is a membership or substring test, or a value
    that [in] refuses: [None] for an empty file, a number, a boolean. *)
Module Document.

Inductive t : Type :=
| mapping (config : Config)
| container (has_images : bool)
| atom.

Definition get_config (W : World) (os : OS) (parse : string -> t)
           (deployment : string) (p : Process)
  : outcome config_exn loaded * Process :=
  let deployment_path := deployment_path_of os deployment in
  let config_path := config_path_of os deployment in
  if negb (path_exists os config_path) then (Return EmptyDict, p)
  else
    match parse config_path with
    | atom => (Raise (TypeError "argument is not iterable"), p)
    | container true => (Raise (TypeError "indices must be integers"), p)
    | container false => (Raise (UnboundLocalError "images"), p)
    | mapping config =>
        match select_images config with
        | Raise e => (Raise e, p)
        | Return images0 =>
            match normalize_paths os deployment_path images0 with
            | Raise e => (Raise e, p)
            | Return images1 =>
                match construct_all W images1 p with
                | (Raise e, p') => (Raise e, p')
                | (Return instances, p') =>
                    (Return (Loaded config instances), p')
                end
            end
        end
    end.

End Document.

(** * Properties *)

(** ** Basic facts *)

Lemma state_eta (s : State) : {| self := self s; proc := proc s |} = s.
Proof. destruct s; reflexivity. Qed.

Lemma docker_run (s : State) :
  docker s = (Return (client_of (proc s)),
              {| self := self s; proc := ensure_docker (proc s) |}).
Proof.
  destruct s as [me [d k t]]; unfold docker, client_of, ensure_docker; simpl.
  destruct d; reflexivity.
Qed.

Lemma ensure_docker_stored (p : Process) :
  _docker (ensure_docker p) = Some (client_of p).
Proof.
  unfold ensure_docker, client_of; destruct (_docker p) eqn:E; simpl; auto.
Qed.

Lemma ensure_docker_idem (p : Process) (c : DockerClient) :
  _docker p = Some c -> ensure_docker p = p /\ client_of p = c.
Proof.
  intros E; unfold ensure_docker, client_of; rewrite E; auto.
Qed.

Lemma str_truthy_false (s : string) : str_truthy s = false <-> s = "".
Proof.
  unfold str_truthy; destruct (String.eqb_spec s "") as [->|N]; simpl; split;
    congruence.
Qed.

Lemma exists_in_registry_run (W : World) (s : State) :
  exists_in_registry W s =
  (match get_registry_data W (image_spec (self s)) with
   | Return m => Return (is_not_None m)
   | Raise e =>
       if manifest_absent (Raise e) then Return false
       else Raise (DockerError e)
   end,
   {| self := self s;
      proc := log (ev_get_registry_data (client_of (proc s)) (image_spec (self s)))
                  (ensure_docker (proc s)) |}).
Proof.
  unfold exists_in_registry, try_except, bind, get_self, images_get_registry_data.
  rewrite docker_run; cbn [emit bind fst snd self proc].
  unfold emit, bind, call_docker; cbn [self proc].
  destruct (get_registry_data W (image_spec (self s))) as [m|e].
  - reflexivity.
  - unfold manifest_absent, raise, ret.
    destruct (errors.isinstance e errors.ImageNotFound); [reflexivity|].
    destruct (errors.isinstance e errors.APIError); [|reflexivity].
    cbn [orb andb].
    destruct (String.prefix _ _); reflexivity.
Qed.

(** ** Concrete runs *)

Example issubclass_chain :
  errors.issubclass errors.ImageNotFound errors.NotFound = true
  /\ errors.issubclass errors.ImageNotFound errors.APIError = true
  /\ errors.issubclass errors.NotFound errors.ImageNotFound = false
  /\ errors.issubclass errors.APIError errors.NotFound = false
  /\ errors.issubclass errors.ConnectionError errors.APIError = false.
Proof. repeat split. Qed.

Example range_1_16 :
  range 1 16 = [1; 2; 3; 4; 5; 6; 7; 8; 9; 10; 11; 12; 13; 14; 15].
Proof. reflexivity. Qed.

Example range_empty : range 1 1 = [] /\ range 1 0 = [] /\ range 1 (-3) = [].
Proof. repeat split. Qed.

Example init_uncommitted :
  tag (self state0) = "latest"
  /\ image_spec (self state0) = "registry.example/hub:latest"
  /\ subdir (r2d (self state0)) = "/repo/deployments/hub/image"
  /\ output_image_spec (r2d (self state0)) = "registry.example/hub:latest".
Proof. repeat split. Qed.

Example exists_manifest_unknown :
  fst (exists_in_registry
         (world_raising (errors.mk errors.APIError "manifest unknown: not here"))
         state0)
  = Return false.
Proof. reflexivity. Qed.

Example exists_other_text_raised :
  fst (exists_in_registry
         (world_raising (errors.mk errors.APIError "manifest unknown"))
         state0)
  = Raise (DockerError (errors.mk errors.APIError "manifest unknown")).
Proof. reflexivity. Qed.

Example exists_plain_not_found_raised :
  fst (exists_in_registry
         (world_raising (errors.mk errors.NotFound "no such repository"))
         state0)
  = Raise (DockerError (errors.mk errors.NotFound "no such repository")).
Proof. reflexivity. Qed.

Example needs_building_both :
  fst (needs_building world0 true (Some "main...HEAD") state0)
  = Raise (ValueError "Only one of check_registry or commit_range can be set").
Proof. reflexivity. Qed.

Example needs_building_empty_range :
  fst (needs_building world0 false (Some "") state0)
  = Raise (ValueError "One of check_registry or commit_range must be set").
Proof. reflexivity. Qed.

Example probe_connection_error_not_absorbed :
  fst (fetch_parent_image
         (world_raising (errors.mk errors.ConnectionError "connection reset"))
         state0)
  = Raise (DockerError (errors.mk errors.ConnectionError "connection reset")).
Proof. reflexivity. Qed.

(** ** Tag resolution *)

(** C4: the tag of a constructed image is the revision id the history
    oracle gives for the most recent commit touching the path (the call
    without an offset), and the sentinel [latest] when the oracle's
    answer is empty; construction asks the oracle exactly that one
    question and always yields an instance. *)
Theorem C4_init_tag (W : World) (name0 path0 hsp : string) (p : Process) :
  let rev := last_modified_commit W path0 None in
  let me := fst (LocalImage_init W name0 path0 hsp p) in
  tag me = (if (rev =? "")%string then "latest" else rev)
  /\ name me = name0
  /\ path me = path0
  /\ image_spec me = name0 ++ ":" ++ tag me
  /\ offsets_asked (trace (snd (LocalImage_init W name0 path0 hsp p)))
     = (offsets_asked (trace p) ++ [None])%list.
Proof.
  cbn [LocalImage_init fst snd tag name path image_spec trace log].
  unfold str_truthy.
  destruct (last_modified_commit W path0 None =? "")%string; cbn [negb];
    repeat split; unfold offsets_asked;
    rewrite !flat_map_app; cbn; rewrite !app_nil_r; reflexivity.
Qed.

(** ** The build decision *)

(** C1: with [check_registry] set and no commit range, the decision is
    [True] exactly when the manifest is absent (an [ImageNotFound], an
    [APIError] whose explanation starts with the manifest-unknown text,
    or no manifest object), [False] exactly when the manifest resolves,
    and any other registry error is raised again as it came. *)
Theorem C1_needs_building_registry (W : World) (s : State)
        (commit_range : option string) (H : truthy commit_range = false) :
  let o := get_registry_data W (image_spec (self s)) in
  let r := fst (needs_building W true commit_range s) in
  (r = Return (Some true) <-> manifest_absent o = true)
  /\ (r = Return (Some false) <-> manifest_resolves o = true)
  /\ (forall e, o = Raise e -> manifest_absent o = false ->
                r = Raise (DockerError e)).
Proof.
  cbv zeta. unfold needs_building. rewrite H. cbn [andb orb negb].
  unfold bind. rewrite exists_in_registry_run. cbn [fst].
  destruct (get_registry_data W (image_spec (self s))) as [[m|]|e].
  - cbn. repeat split; try congruence; intros; discriminate.
  - cbn. repeat split; try congruence; intros; discriminate.
  - destruct (manifest_absent (Raise e)) eqn:A; cbn.
    + repeat split; try congruence; intros; discriminate.
    + repeat split; try congruence; try (intros; discriminate).
Qed.

Lemma C1_needs_building_registry_witness :
  truthy None = false
  /\ fst (needs_building world0 true None state0) = Return (Some true).
Proof.
  split; [reflexivity|].
  destruct (C1_needs_building_registry world0 state0 None eq_refl) as [A _].
  apply A. reflexivity.
Defined.

(** C2: [needs_building] raises its usage error, before any query and
    leaving the state as it was, when [check_registry] and a non-empty
    [commit_range] are both given and when neither is; with exactly one
    of the two it raises no usage error. *)
Theorem C2_needs_building_usage (W : World) (s : State)
        (check_registry : bool) (commit_range : option string) :
  let r := needs_building W check_registry commit_range s in
  is_ValueError (fst r) = negb (xorb check_registry (truthy commit_range))
  /\ (check_registry = true -> truthy commit_range = true ->
      r = (Raise (ValueError "Only one of check_registry or commit_range can be set"), s))
  /\ (check_registry = false -> truthy commit_range = false ->
      r = (Raise (ValueError "One of check_registry or commit_range must be set"), s)).
Proof.
  cbv zeta. unfold needs_building.
  destruct check_registry, (truthy commit_range) eqn:T; cbn [andb orb negb xorb].
  - repeat split; intros; try congruence.
  - unfold bind. rewrite exists_in_registry_run.
    split; [|split; intros; congruence].
    destruct (get_registry_data W (image_spec (self s))) as [m|e]; [reflexivity|].
    destruct (manifest_absent (Raise e)); reflexivity.
  - split; [|split; intros; congruence].
    destruct commit_range as [cr|]; [|discriminate T].
    cbn in T. rewrite T. reflexivity.
  - repeat split; intros; try congruence.
Qed.

(** C5: with a non-empty commit range and [check_registry] unset, the
    decision is the history oracle's answer for the image's path and
    that range; the only call made is that question, so no registry
    call is made and no docker client is created. *)
Theorem C5_needs_building_commit_range (W : World) (s : State) (cr : string)
        (H : str_truthy cr = true) :
  let r := needs_building W false (Some cr) s in
  (fst r = Return (Some true) <-> path_touched W (path (self s)) cr = true)
  /\ (fst r = Return (Some false) <-> path_touched W (path (self s)) cr = false)
  /\ trace (proc (snd r)) = (trace (proc s) ++ [ev_path_touched (path (self s)) cr])%list
  /\ registry_calls (trace (proc (snd r))) = registry_calls (trace (proc s))
  /\ _docker (proc (snd r)) = _docker (proc s)
  /\ from_env_calls (proc (snd r)) = from_env_calls (proc s).
Proof.
  cbv zeta. unfold needs_building. cbn [andb orb negb truthy]. rewrite H.
  cbn. unfold registry_calls. rewrite filter_app. cbn. rewrite app_nil_r.
  destruct (path_touched W (path (self s)) cr);
    repeat split; intros; congruence.
Qed.

Lemma C5_needs_building_commit_range_witness :
  str_truthy "main...HEAD" = true
  /\ fst (needs_building world_touched false (Some "main...HEAD") state0)
     = Return (Some true).
Proof.
  split; [reflexivity|].
  destruct (C5_needs_building_commit_range world_touched state0 "main...HEAD" eq_refl)
    as [A _].
  apply A. reflexivity.
Defined.

(** ** [range] *)

Lemma range_shift_from (lo : Z) (a c b : nat) :
  map (fun k => lo + Z.of_nat k) (seq (a + c) b)
  = map (fun k => (lo + Z.of_nat a) + Z.of_nat k) (seq c b).
Proof.
  revert c; induction b as [|b IH]; intros c; [reflexivity|].
  cbn [seq map]. f_equal; [lia|].
  replace (S (a + c)) with (a + S c)%nat by lia. apply IH.
Qed.

Lemma range_shift (lo : Z) (a b : nat) :
  map (fun k => lo + Z.of_nat k) (seq a b)
  = map (fun k => (lo + Z.of_nat a) + Z.of_nat k) (seq 0 b).
Proof.
  rewrite <- (range_shift_from lo a 0 b). f_equal. f_equal. lia.
Qed.

Lemma range_app (lo k hi : Z) :
  lo <= k <= hi -> range lo hi = (range lo k ++ range k hi)%list.
Proof.
  intros H. unfold range.
  replace (Z.to_nat (hi - lo)) with (Z.to_nat (k - lo) + Z.to_nat (hi - k))%nat by lia.
  rewrite seq_app, map_app. f_equal.
  cbn [Nat.add]. rewrite range_shift.
  apply map_ext; intros j. rewrite Z2Nat.id by lia. lia.
Qed.

Lemma range_cons (lo hi : Z) :
  lo < hi -> range lo hi = lo :: range (lo + 1) hi.
Proof.
  intros H. rewrite (range_app lo (lo + 1) hi) by lia.
  unfold range at 1. replace (lo + 1 - lo) with 1 by lia.
  change (Z.to_nat 1) with 1%nat. cbn [seq map app Z.of_nat].
  rewrite Z.add_0_r. reflexivity.
Qed.

Lemma range_snoc (lo k : Z) :
  lo <= k -> range lo (k + 1) = (range lo k ++ [k])%list.
Proof.
  intros H. rewrite (range_app lo k (k + 1)) by lia. f_equal.
  rewrite range_cons by lia. unfold range.
  replace (k + 1 - (k + 1)) with 0 by lia. reflexivity.
Qed.

Lemma range_split (lo k hi : Z) :
  lo <= k < hi -> range lo hi = (range lo k ++ k :: range (k + 1) hi)%list.
Proof.
  intros H. rewrite (range_app lo k hi) by lia.
  rewrite (range_cons k hi) by lia. reflexivity.
Qed.

Lemma in_range (lo hi i : Z) : In i (range lo hi) <-> lo <= i < hi.
Proof.
  unfold range. rewrite in_map_iff. split.
  - intros [k [<- K]]. apply in_seq in K. lia.
  - intros H. exists (Z.to_nat (i - lo)). split; [lia|].
    apply in_seq. lia.
Qed.

Lemma range_length (lo hi : Z) : length (range lo hi) = Z.to_nat (hi - lo).
Proof. unfold range. rewrite length_map, length_seq. reflexivity. Qed.

(** ** Reading the trace of the probe *)

Lemma pulled_app (t u : list event) : pulled (t ++ u) = (pulled t ++ pulled u)%list.
Proof. apply flat_map_app. Qed.

Lemma offsets_asked_app (t u : list event) :
  offsets_asked (t ++ u) = (offsets_asked t ++ offsets_asked u)%list.
Proof. apply flat_map_app. Qed.

Lemma builds_app (t u : list event) : builds (t ++ u) = (builds t ++ builds u)%list.
Proof. apply flat_map_app. Qed.

Lemma ensure_docker_trace (p : Process) :
  pulled (trace (ensure_docker p)) = pulled (trace p)
  /\ offsets_asked (trace (ensure_docker p)) = offsets_asked (trace p)
  /\ builds (trace (ensure_docker p)) = builds (trace p).
Proof.
  unfold ensure_docker. destruct (_docker p); [auto|]. cbn [trace].
  rewrite pulled_app, offsets_asked_app, builds_app. cbn.
  rewrite !app_nil_r. auto.
Qed.

Lemma attempt_trace (W : World) (me : LocalImage) (p : Process) (i : Z) :
  pulled (trace (attempt W me p i)) = (pulled (trace p) ++ [candidate W me i])%list
  /\ offsets_asked (trace (attempt W me p i))
     = (offsets_asked (trace p) ++ [Some i])%list
  /\ builds (trace (attempt W me p i)) = builds (trace p).
Proof.
  unfold attempt. cbv zeta. cbn [log trace].
  rewrite pulled_app, offsets_asked_app, builds_app.
  destruct (ensure_docker_trace
              (log (ev_print ("Trying to fetch parent image " ++ candidate W me i))
                   (log (ev_last_modified_commit (path me) (Some i)) p)))
    as (A & B & C).
  rewrite A, B, C. cbn [log trace].
  rewrite !pulled_app, !offsets_asked_app, !builds_app. cbn.
  rewrite !app_nil_r. auto.
Qed.

Lemma attempts_trace (W : World) (me : LocalImage) (offs : list Z) (p : Process) :
  pulled (trace (attempts W me offs p))
  = (pulled (trace p) ++ map (candidate W me) offs)%list
  /\ offsets_asked (trace (attempts W me offs p))
     = (offsets_asked (trace p) ++ map Some offs)%list
  /\ builds (trace (attempts W me offs p)) = builds (trace p).
Proof.
  revert p; induction offs as [|i offs IH]; intros p.
  - cbn. rewrite !app_nil_r. auto.
  - unfold attempts. cbn [fold_left]. fold (attempts W me offs (attempt W me p i)).
    destruct (IH (attempt W me p i)) as (A & B & C).
    destruct (attempt_trace W me p i) as (A' & B' & C').
    rewrite A, B, C, A', B', C'. cbn [map].
    rewrite <- !app_assoc. auto.
Qed.

Lemma attempts_app (W : World) (me : LocalImage) (xs ys : list Z) (p : Process) :
  attempts W me (xs ++ ys) p = attempts W me ys (attempts W me xs p).
Proof. unfold attempts. apply fold_left_app. Qed.

(** ** One turn of the probe *)

Lemma fetch_body_run (W : World) (s : State) (tag0 : string) :
  fetch_body W tag0 s =
  let spec := name (self s) ++ ":" ++ tag0 in
  let p2 := log (ev_print ("Trying to fetch parent image " ++ spec)) (proc s) in
  (match pull W spec with
   | Return _ => Return (Returned (Some spec))
   | Raise e =>
       if errors.isinstance e errors.NotFound then Return Continue
       else Raise (DockerError e)
   end,
   {| self := self s; proc := log (ev_pull (client_of p2) spec) (ensure_docker p2) |}).
Proof.
  unfold fetch_body, try_except, bind, get_self, emit, images_pull.
  cbn [self proc]. rewrite docker_run. unfold bind, emit, call_docker.
  cbn [self proc].
  destruct (pull W (name (self s) ++ ":" ++ tag0)) as [[]|e]; [reflexivity|].
  unfold raise, ret.
  destruct (errors.isinstance e errors.NotFound); reflexivity.
Qed.

Lemma fetch_loop_step (W : World) (s : State) (i : Z) (rest : list Z) :
  fetch_loop W (tags_at W (i :: rest)) s =
  let s' := {| self := self s; proc := attempt W (self s) (proc s) i |} in
  match pull W (candidate W (self s) i) with
  | Return _ => (Return (Some (candidate W (self s) i)), s')
  | Raise e =>
      if errors.isinstance e errors.NotFound
      then fetch_loop W (tags_at W rest) s'
      else (Raise (DockerError e), s')
  end.
Proof.
  cbn [tags_at map fetch_loop]. fold (tags_at W rest).
  unfold bind at 1. unfold bind at 1.
  unfold get_self, gitutils_last_modified_commit, bind at 1, emit, ret.
  cbn [self proc]. unfold bind at 1.
  rewrite fetch_body_run. cbv zeta. cbn [self proc].
  unfold candidate, attempt. cbv zeta. unfold candidate.
  destruct (pull W _) as [[]|e]; [reflexivity|].
  destruct (errors.isinstance e errors.NotFound); reflexivity.
Qed.

Lemma fetch_loop_skip (W : World) (pre rest : list Z) (s : State) :
  (forall i, In i pre -> pull_not_found W (candidate W (self s) i) = true) ->
  fetch_loop W (tags_at W (pre ++ rest)) s
  = fetch_loop W (tags_at W rest)
               {| self := self s; proc := attempts W (self s) pre (proc s) |}.
Proof.
  revert s; induction pre as [|i pre IH]; intros s H.
  - cbn. rewrite state_eta. reflexivity.
  - cbn [app]. rewrite fetch_loop_step. cbv zeta.
    pose proof (H i (or_introl eq_refl)) as Hi. unfold pull_not_found in Hi.
    destruct (pull W (candidate W (self s) i)) as [u|e]; [discriminate|].
    rewrite Hi. rewrite IH; [reflexivity|].
    intros j Hj. cbn [self]. apply H. right; exact Hj.
Qed.

Lemma fetch_loop_nil (W : World) (s : State) :
  fetch_loop W (tags_at W []) s = (Return None, s).
Proof. reflexivity. Qed.

Lemma get_possible_parent_tags_range (W : World) (n : Z) :
  get_possible_parent_tags W n = tags_at W (range 1 n).
Proof. reflexivity. Qed.

(** The probe once the candidates before offset [k] have all answered
    not-found: the answer at [k] decides. *)
Lemma fetch_parent_image_at (W : World) (s : State) (k : Z) :
  1 <= k < 16 ->
  (forall i, 1 <= i < k -> pull_not_found W (candidate W (self s) i) = true) ->
  fetch_parent_image W s =
  let s' := {| self := self s;
               proc := attempts W (self s) (range 1 (k + 1)) (proc s) |} in
  match pull W (candidate W (self s) k) with
  | Return _ => (Return (Some (candidate W (self s) k)), s')
  | Raise e =>
      if errors.isinstance e errors.NotFound
      then fetch_loop W (tags_at W (range (k + 1) 16)) s'
      else (Raise (DockerError e), s')
  end.
Proof.
  intros K H. unfold fetch_parent_image.
  rewrite get_possible_parent_tags_range.
  rewrite (range_split 1 k 16) by lia.
  rewrite fetch_loop_skip
    by (intros i Hi; apply in_range in Hi; apply H; lia).
  rewrite fetch_loop_step. cbv zeta. cbn [self proc].
  rewrite (range_snoc 1 k) by lia. rewrite attempts_app.
  reflexivity.
Qed.

Lemma fetch_parent_image_none (W : World) (s : State) :
  (forall i, 1 <= i < 16 -> pull_not_found W (candidate W (self s) i) = true) ->
  fetch_parent_image W s =
  (Return None,
   {| self := self s; proc := attempts W (self s) (range 1 16) (proc s) |}).
Proof.
  intros H. unfold fetch_parent_image.
  rewrite get_possible_parent_tags_range.
  rewrite <- (app_nil_r (range 1 16)).
  rewrite (fetch_loop_skip W (range 1 16) [] s)
    by (intros i Hi; apply in_range in Hi; apply H; lia).
  reflexivity.
Qed.

(** ** The cache probe *)

(** The window of the generator: [range(1, n)] is the offsets from 1 to
    [n - 1]. *)
Lemma get_possible_parent_tags_window (W : World) (n : Z) :
  length (get_possible_parent_tags W n) = Z.to_nat (n - 1)
  /\ (forall i, In i (range 1 n) <-> 1 <= i < n).
Proof.
  split.
  - unfold get_possible_parent_tags. rewrite length_map. apply range_length.
  - intros i. apply in_range.
Qed.

(** The first candidate that pulls is returned, after the candidates
    before it and no other have been tried, in the order of the
    offsets. *)
Lemma fetch_parent_image_first_hit (W : World) (s : State) (k : Z) :
  1 <= k < 16 ->
  (forall i, 1 <= i < k -> pull_not_found W (candidate W (self s) i) = true) ->
  pull W (candidate W (self s) k) = Return tt ->
  fst (fetch_parent_image W s) = Return (Some (candidate W (self s) k))
  /\ pulled (trace (proc (snd (fetch_parent_image W s))))
     = (pulled (trace (proc s)) ++ map (candidate W (self s)) (range 1 (k + 1)))%list
  /\ offsets_asked (trace (proc (snd (fetch_parent_image W s))))
     = (offsets_asked (trace (proc s)) ++ map Some (range 1 (k + 1)))%list.
Proof.
  intros K H P. rewrite (fetch_parent_image_at W s k K H). cbv zeta.
  rewrite P. cbn [fst snd proc].
  destruct (attempts_trace W (self s) (range 1 (k + 1)) (proc s)) as (A & B & _).
  auto.
Qed.

(** C3: the specified window runs from offset 1 to [n] inclusive (and
    the docstring lists [n] tags), but the generator's [range(1, n)]
    stops at [n - 1].  With the default [n = 16] and the sixteenth older
    revision the only image the registry holds, the probe asks the
    oracle for the offsets 1 to 15, finds nothing and returns [None],
    although the candidate at offset 16 would pull. *)
Theorem C3_probe_window_stops_at_15 :
  fst (fetch_parent_image world_sixteenth state_sixteenth) = Return None
  /\ offsets_asked (trace (proc (snd (fetch_parent_image world_sixteenth state_sixteenth))))
     = [None; Some 1; Some 2; Some 3; Some 4; Some 5; Some 6; Some 7; Some 8;
        Some 9; Some 10; Some 11; Some 12; Some 13; Some 14; Some 15]
  /\ pull world_sixteenth (candidate world_sixteenth (self state_sixteenth) 16)
     = Return tt
  /\ length (get_possible_parent_tags world_sixteenth 16) = 15%nat.
Proof. vm_compute. auto. Qed.

(** C6: a not-found answer to a pull is absorbed and the probe goes on
    with the next candidate; when every candidate of the window answers
    not-found the probe returns [None] without raising; the first
    answer that is an error other than not-found is raised to the
    caller as it came, and no further candidate is tried. *)
Theorem C6_probe_errors (W : World) (s : State) :
  let cand := candidate W (self s) in
  let r := fetch_parent_image W s in
  ((forall i, 1 <= i < 16 -> pull_not_found W (cand i) = true) ->
   fst r = Return None
   /\ pulled (trace (proc (snd r)))
      = (pulled (trace (proc s)) ++ map cand (range 1 16))%list)
  /\ (forall k e,
         1 <= k < 16 ->
         (forall i, 1 <= i < k -> pull_not_found W (cand i) = true) ->
         pull W (cand k) = Raise e ->
         errors.isinstance e errors.NotFound = false ->
         fst r = Raise (DockerError e)
         /\ pulled (trace (proc (snd r)))
            = (pulled (trace (proc s)) ++ map cand (range 1 (k + 1)))%list).
Proof.
  cbv zeta. split.
  - intros H. rewrite (fetch_parent_image_none W s H). cbn [fst snd proc].
    destruct (attempts_trace W (self s) (range 1 16) (proc s)) as (A & _).
    auto.
  - intros k e K H P N. rewrite (fetch_parent_image_at W s k K H). cbv zeta.
    rewrite P, N. cbn [fst snd proc].
    destruct (attempts_trace W (self s) (range 1 (k + 1)) (proc s)) as (A & _).
    auto.
Qed.

Lemma C6_probe_errors_witness :
  fst (fetch_parent_image world0 state0) = Return None
  /\ fst (fetch_parent_image world_denied state_denied)
     = Raise (DockerError
                (errors.mk errors.APIError "unauthorized: authentication required"))
  /\ pulled (trace (proc (snd (fetch_parent_image world_denied state_denied))))
     = ["hub:aaa1111"; "hub:bbb2222"; "hub:ccc3333"].
Proof.
  destruct (C6_probe_errors world0 state0) as [A _].
  destruct (C6_probe_errors world_denied state_denied) as [_ B].
  split; [apply A; intros i Hi; reflexivity|].
  apply (B 3 (errors.mk errors.APIError "unauthorized: authentication required")).
  - lia.
  - intros i Hi. assert (E : i = 1 \/ i = 2) by lia.
    destruct E as [-> | ->]; reflexivity.
  - reflexivity.
  - reflexivity.
Defined.

Lemma consume_tags_at (W : World) (offs : list Z) (s : State) :
  consume (tags_at W offs) s =
  (Return (map (fun i => last_modified_commit W (path (self s)) (Some i)) offs),
   {| self := self s;
      proc := {| _docker := _docker (proc s);
                 from_env_calls := from_env_calls (proc s);
                 trace := trace (proc s)
                          ++ map (fun i => ev_last_modified_commit (path (self s)) (Some i))
                                 offs |} |}).
Proof.
  revert s; induction offs as [|i offs IH]; intros s.
  - cbn. rewrite app_nil_r. destruct s as [me [d k t]]; reflexivity.
  - cbn [tags_at map consume]. fold (tags_at W offs).
    unfold bind at 1. unfold bind at 1.
    unfold get_self, gitutils_last_modified_commit, bind at 1, emit, ret.
    cbn [self proc]. unfold bind at 1. rewrite IH. cbn [self proc log _docker from_env_calls trace].
    rewrite <- app_assoc. reflexivity.
Qed.

Lemma fetch_loop_pulled_extends (W : World) (offs : list Z) (s : State) :
  exists more,
    pulled (trace (proc (snd (fetch_loop W (tags_at W offs) s))))
    = (pulled (trace (proc s)) ++ more)%list.
Proof.
  revert s; induction offs as [|i offs IH]; intros s.
  - exists []. cbn. rewrite app_nil_r. reflexivity.
  - rewrite fetch_loop_step. cbv zeta.
    destruct (attempt_trace W (self s) (proc s) i) as (A & _).
    destruct (pull W (candidate W (self s) i)) as [u|e].
    + exists [candidate W (self s) i]. cbn [snd proc]. exact A.
    + destruct (errors.isinstance e errors.NotFound).
      * destruct (IH {| self := self s; proc := attempt W (self s) (proc s) i |})
          as [more E].
        exists (candidate W (self s) i :: more). rewrite E. cbn [proc].
        rewrite A, <- app_assoc. reflexivity.
      * exists [candidate W (self s) i]. cbn [snd proc]. exact A.
Qed.

(** C10: when the oracle's answer at an offset of the window is empty,
    the generator yields that empty answer like any other, and the
    probe, on reaching it, forms the spec [name:] with an empty tag and
    tries to pull it: the pull is attempted right after those of the
    earlier candidates, and if it succeeds the tagless spec is what the
    probe returns. *)
Theorem C10_probe_empty_tag (W : World) (s : State) (k : Z)
        (K : 1 <= k < 16)
        (E : last_modified_commit W (path (self s)) (Some k) = "")
        (H : forall i, 1 <= i < k ->
                       pull_not_found W (candidate W (self s) i) = true) :
  let r := fetch_parent_image W s in
  fst (consume (get_possible_parent_tags W 16) s)
  = Return (map (fun i => last_modified_commit W (path (self s)) (Some i))
                (range 1 16))
  /\ nth_error (map (fun i => last_modified_commit W (path (self s)) (Some i))
                    (range 1 16))
               (Z.to_nat (k - 1)) = Some ""
  /\ candidate W (self s) k = name (self s) ++ ":"
  /\ (exists more,
         pulled (trace (proc (snd r)))
         = (pulled (trace (proc s))
            ++ map (candidate W (self s)) (range 1 k)
            ++ (name (self s) ++ ":")%string :: more)%list)
  /\ (pull W (name (self s) ++ ":") = Return tt ->
      fst r = Return (Some (name (self s) ++ ":"))).
Proof.
  cbv zeta.
  assert (C : candidate W (self s) k = name (self s) ++ ":").
  { unfold candidate. rewrite E. reflexivity. }
  split; [|split; [|split; [exact C|split]]].
  - rewrite get_possible_parent_tags_range, consume_tags_at. reflexivity.
  - rewrite (range_split 1 k 16) by lia. rewrite map_app.
    rewrite nth_error_app2; rewrite length_map, range_length;
      [|lia].
    replace (Z.to_nat (k - 1) - Z.to_nat (k - 1))%nat with 0%nat by lia.
    cbn. rewrite E. reflexivity.
  - rewrite (fetch_parent_image_at W s k K H). cbv zeta.
    destruct (attempts_trace W (self s) (range 1 (k + 1)) (proc s)) as (A & _).
    rewrite (range_snoc 1 k) in A by lia. rewrite map_app in A.
    cbn [map] in A. rewrite C in A.
    destruct (pull W (candidate W (self s) k)) as [u|e].
    + exists []. cbn [snd proc]. rewrite (range_snoc 1 k) by lia.
      exact A.
    + destruct (errors.isinstance e errors.NotFound).
      * destruct (fetch_loop_pulled_extends W (range (k + 1) 16)
                    {| self := self s;
                       proc := attempts W (self s) (range 1 (k + 1)) (proc s) |})
          as [more M].
        exists more. rewrite M. cbn [proc].
        rewrite (range_snoc 1 k) by lia. rewrite A.
        rewrite <- !app_assoc. reflexivity.
      * exists []. cbn [snd proc]. rewrite (range_snoc 1 k) by lia.
        exact A.
  - intros P. rewrite <- C in P.
    destruct (fetch_parent_image_first_hit W s k K H P) as (R & _).
    rewrite R, C. reflexivity.
Qed.

Lemma C10_probe_empty_tag_witness :
  (1 <= 2 < 16)
  /\ last_modified_commit world_short_history (path (self state_short_history)) (Some 2) = ""
  /\ fst (fetch_parent_image world_short_history state_short_history)
     = Return (Some "hub:")
  /\ (exists more,
         pulled (trace (proc (snd (fetch_parent_image world_short_history
                                                      state_short_history))))
         = "hub:aaa1111" :: "hub:" :: more).
Proof.
  assert (K : 1 <= 2 < 16) by lia.
  assert (H : forall i, 1 <= i < 2 ->
                        pull_not_found world_short_history
                          (candidate world_short_history (self state_short_history) i)
                        = true).
  { intros i Hi. assert (i = 1) as -> by lia. reflexivity. }
  destruct (C10_probe_empty_tag world_short_history state_short_history 2 K eq_refl H)
    as (_ & _ & _ & T & R).
  split; [exact K|]. split; [reflexivity|]. split; [apply R; reflexivity|].
  destruct T as [more T]. exists more. exact T.
Defined.

(** ** What the operations leave alone *)

Lemma fetch_loop_self (W : World) (offs : list Z) (s : State) :
  self (snd (fetch_loop W (tags_at W offs) s)) = self s
  /\ builds (trace (proc (snd (fetch_loop W (tags_at W offs) s))))
     = builds (trace (proc s)).
Proof.
  revert s; induction offs as [|i offs IH]; intros s.
  - split; reflexivity.
  - rewrite fetch_loop_step. cbv zeta.
    destruct (attempt_trace W (self s) (proc s) i) as (_ & _ & B).
    destruct (pull W (candidate W (self s) i)) as [u|e]; [split; [reflexivity|exact B]|].
    destruct (errors.isinstance e errors.NotFound); [|split; [reflexivity|exact B]].
    destruct (IH {| self := self s; proc := attempt W (self s) (proc s) i |})
      as [A C].
    split; [exact A|]. rewrite C. exact B.
Qed.

(** The probe's answer is a function of the name and the path. *)
Lemma fetch_loop_answer (W : World) (offs : list Z) (s1 s2 : State) :
  name (self s1) = name (self s2) ->
  path (self s1) = path (self s2) ->
  fst (fetch_loop W (tags_at W offs) s1) = fst (fetch_loop W (tags_at W offs) s2).
Proof.
  revert s1 s2; induction offs as [|i offs IH]; intros s1 s2 N P.
  - reflexivity.
  - rewrite !fetch_loop_step. cbv zeta.
    assert (C : candidate W (self s1) i = candidate W (self s2) i).
    { unfold candidate. rewrite N, P. reflexivity. }
    rewrite C.
    destruct (pull W (candidate W (self s2) i)) as [u|e]; [reflexivity|].
    destruct (errors.isinstance e errors.NotFound); [|reflexivity].
    apply IH; assumption.
Qed.

(** A spec the probe returns is never an empty string. *)
Lemma spec_truthy (a b : string) : str_truthy (a ++ ":" ++ b) = true.
Proof. destruct a; reflexivity. Qed.

Lemma fetch_loop_returns_candidate (W : World) (offs : list Z) (s : State) (spec : string) :
  fst (fetch_loop W (tags_at W offs) s) = Return (Some spec) ->
  str_truthy spec = true.
Proof.
  revert s; induction offs as [|i offs IH]; intros s.
  - discriminate.
  - rewrite fetch_loop_step. cbv zeta.
    destruct (pull W (candidate W (self s) i)) as [u|e].
    + cbn [fst]. intros [= <-]. apply spec_truthy.
    + destruct (errors.isinstance e errors.NotFound); [apply IH|discriminate].
Qed.

Lemma with_cache_from_same (me : LocalImage) :
  with_cache_from me (cache_from (r2d me)) = me.
Proof. destruct me as [n t p h i [a b c d e f]]; reflexivity. Qed.

(** [build], run: the probe, then the engine on the instance's
    [Repo2Docker] object, whose [cache_from] has been set when the
    probe returned a spec. *)
Lemma build_run (W : World) (s : State) :
  build W s =
  match fetch_parent_image W s with
  | (Raise e, s1) => (Raise e, s1)
  | (Return found, s1) =>
      let me' := with_cache_from (self s)
                   (match found with
                    | Some spec => [spec]
                    | None => cache_from (r2d (self s))
                    end) in
      (match r2d_build W (r2d me') with
       | Return _ => Return tt
       | Raise msg => Raise (BuildEngineError msg)
       end,
       {| self := me'; proc := log (ev_r2d_build (r2d me')) (proc s1) |})
  end.
Proof.
  unfold build. unfold bind at 1.
  pose proof (fetch_loop_self W (range 1 16) s) as [S _].
  pose proof (fetch_loop_returns_candidate W (range 1 16) s) as T.
  unfold fetch_parent_image in *. rewrite get_possible_parent_tags_range in *.
  destruct (fetch_loop W (tags_at W (range 1 16)) s) as [[found|e] s1];
    [|reflexivity].
  cbn [snd fst] in S, T. cbv zeta.
  destruct found as [spec|].
  - cbn [truthy]. rewrite (T spec eq_refl).
    unfold bind at 1. unfold set_r2d_cache_from. rewrite S.
    unfold self_r2d_build, bind, get_self, emit, call_engine. cbn [self proc].
    destruct (r2d_build W _) as [[]|msg]; reflexivity.
  - cbn [truthy]. rewrite !with_cache_from_same.
    unfold bind at 1, ret at 1.
    unfold self_r2d_build, bind, get_self, emit, call_engine. cbn [self proc].
    rewrite S.
    destruct (r2d_build W _) as [[]|msg]; reflexivity.
Qed.

Lemma discard_self {A} (m : M A) (s : State) :
  snd (discard m s) = snd (m s).
Proof.
  unfold discard, bind, ret. destruct (m s) as [[a|e] s']; reflexivity.
Qed.

Lemma needs_building_self (W : World) (b : bool) (cr : option string) (s : State) :
  self (snd (needs_building W b cr s)) = self s.
Proof.
  unfold needs_building.
  destruct b, (truthy cr) eqn:T; cbn [andb orb negb]; try reflexivity.
  - unfold bind. rewrite exists_in_registry_run.
    destruct (get_registry_data W (image_spec (self s))) as [m|e]; [reflexivity|].
    destruct (manifest_absent (Raise e)); reflexivity.
  - destruct cr as [c|]; [|discriminate T]. cbn in T. rewrite T. reflexivity.
Qed.

Lemma push_self (W : World) (s : State) : self (snd (push W s)) = self s.
Proof.
  unfold push, self_r2d_push_image, bind, get_self, emit, call_engine.
  cbn [self proc]. destruct (r2d_push_image W (r2d (self s))) as [[]|msg]; reflexivity.
Qed.

(** Every operation but [build] leaves the instance as it was;
    [build] changes at most [r2d.cache_from]. *)
Lemma run_op_self (W : World) (o : operation) (s : State) :
  exists l, self (snd (run_op W o s)) = with_cache_from (self s) l.
Proof.
  destruct o; cbn [run_op]; rewrite ?discard_self.
  - exists (cache_from (r2d (self s))). rewrite docker_run, with_cache_from_same.
    reflexivity.
  - exists (cache_from (r2d (self s))).
    rewrite exists_in_registry_run, with_cache_from_same. reflexivity.
  - exists (cache_from (r2d (self s))).
    rewrite get_possible_parent_tags_range, consume_tags_at, with_cache_from_same.
    reflexivity.
  - exists (cache_from (r2d (self s))). unfold fetch_parent_image.
    rewrite get_possible_parent_tags_range.
    destruct (fetch_loop_self W (range 1 16) s) as [A _].
    rewrite A, with_cache_from_same. reflexivity.
  - exists (cache_from (r2d (self s))).
    rewrite needs_building_self, with_cache_from_same. reflexivity.
  - rewrite build_run.
    pose proof (fetch_loop_self W (range 1 16) s) as [A _].
    unfold fetch_parent_image. rewrite get_possible_parent_tags_range.
    destruct (fetch_loop W (tags_at W (range 1 16)) s) as [[found|e] s1].
    + cbv zeta. cbn [snd self]. eexists. reflexivity.
    + cbn [snd] in *. exists (cache_from (r2d (self s))).
      rewrite A, with_cache_from_same. reflexivity.
  - exists (cache_from (r2d (self s))). rewrite push_self, with_cache_from_same.
    reflexivity.
Qed.

Lemma run_op_identity (W : World) (o : operation) (s : State) :
  name (self (snd (run_op W o s))) = name (self s)
  /\ tag (self (snd (run_op W o s))) = tag (self s)
  /\ path (self (snd (run_op W o s))) = path (self s)
  /\ image_spec (self (snd (run_op W o s))) = image_spec (self s).
Proof.
  destruct (run_op_self W o s) as [l E]. rewrite E. repeat split.
Qed.

Lemma run_ops_self (W : World) (ops : list operation) (s : State) :
  exists l, self (run_ops W ops s) = with_cache_from (self s) l.
Proof.
  revert s; induction ops as [|o ops IH]; intros s.
  - exists (cache_from (r2d (self s))). cbn. rewrite with_cache_from_same.
    reflexivity.
  - cbn [run_ops]. destruct (IH (snd (run_op W o s))) as [l E].
    destruct (run_op_self W o s) as [l' E'].
    exists l. rewrite E, E'. reflexivity.
Qed.

Lemma run_op_hint_ok (W : World) (o : operation) (s : State) :
  hint_ok W (self s) -> hint_ok W (self (snd (run_op W o s))).
Proof.
  intros H.
  assert (Keep : self (snd (run_op W o s)) = self s -> hint_ok W (self (snd (run_op W o s))))
    by (intros ->; exact H).
  destruct o; cbn [run_op] in *; rewrite ?discard_self in *.
  - apply Keep. rewrite docker_run. reflexivity.
  - apply Keep. rewrite exists_in_registry_run. reflexivity.
  - apply Keep. rewrite get_possible_parent_tags_range, consume_tags_at. reflexivity.
  - apply Keep. unfold fetch_parent_image. rewrite get_possible_parent_tags_range.
    apply (fetch_loop_self W (range 1 16) s).
  - apply Keep. apply needs_building_self.
  - clear Keep. rewrite build_run.
    pose proof (fetch_loop_self W (range 1 16) s) as [A _].
    pose proof (fun s' => fetch_loop_answer W (range 1 16) s' s) as D.
    unfold fetch_parent_image in *. rewrite get_possible_parent_tags_range in *.
    destruct (fetch_loop W (tags_at W (range 1 16)) s) as [[found|e] s1].
    + cbv zeta. cbn [snd self fst] in *. destruct found as [spec|].
      * right. exists spec. split; [reflexivity|].
        intros s' N P. apply D; assumption.
      * rewrite with_cache_from_same. exact H.
    + cbn [snd] in *. rewrite A. exact H.
  - apply Keep. apply push_self.
Qed.

Lemma run_ops_hint_ok (W : World) (ops : list operation) (s : State) :
  hint_ok W (self s) -> hint_ok W (self (run_ops W ops s)).
Proof.
  revert s; induction ops as [|o ops IH]; intros s H; [exact H|].
  cbn [run_ops]. apply IH. apply run_op_hint_ok. exact H.
Qed.

(** ** The instance *)

(** C8: no operation changes [name], [tag], [path] or [image_spec];
    a constructed instance has the given name and path and satisfies
    [image_spec = name:tag], and so does the instance after any run of
    operations. *)
Theorem C8_identity_preserved (W : World) (name0 path0 hsp : string)
        (p : Process) (ops : list operation) :
  let me0 := fst (LocalImage_init W name0 path0 hsp p) in
  let s := run_ops W ops (construct W name0 path0 hsp p) in
  (forall o s0,
      name (self (snd (run_op W o s0))) = name (self s0)
      /\ tag (self (snd (run_op W o s0))) = tag (self s0)
      /\ path (self (snd (run_op W o s0))) = path (self s0)
      /\ image_spec (self (snd (run_op W o s0))) = image_spec (self s0))
  /\ name me0 = name0
  /\ path me0 = path0
  /\ image_spec me0 = name0 ++ ":" ++ tag me0
  /\ name (self s) = name0
  /\ tag (self s) = tag me0
  /\ path (self s) = path0
  /\ image_spec (self s) = image_spec me0
  /\ image_spec (self s) = name (self s) ++ ":" ++ tag (self s).
Proof.
  cbv zeta. split; [intros o s0; apply run_op_identity|].
  destruct (run_ops_self W ops (construct W name0 path0 hsp p)) as [l E].
  rewrite E. cbn. repeat split.
Qed.

(** ** Build *)

Lemma construct_hint_ok (W : World) (name0 path0 hsp : string) (p : Process) :
  hint_ok W (self (construct W name0 path0 hsp p)).
Proof. left. reflexivity. Qed.

(** In a world that does not change, and with a daemon that answers,
    the hint of an earlier build is the spec the probe returns again:
    the engine is then given a cache source exactly when the probe
    returned one. *)
Lemma build_in_unchanged_world (W : World) (name0 path0 hsp : string)
        (p : Process) (ops : list operation) :
  let me0 := fst (LocalImage_init W name0 path0 hsp p) in
  let s := run_ops W ops (construct W name0 path0 hsp p) in
  match fetch_parent_image W s with
  | (Raise e, s1) => build W s = (Raise e, s1)
  | (Return found, s1) =>
      let engine :=
        {| subdir := path0;
           output_image_spec := name0 ++ ":" ++ tag me0;
           user_id := 1000;
           user_name := "jovyan";
           target_repo_dir := "/srv/repo";
           cache_from := match found with
                         | Some spec => [spec]
                         | None => []
                         end |} in
      build W s
      = (match r2d_build W engine with
         | Return _ => Return tt
         | Raise msg => Raise (BuildEngineError msg)
         end,
         {| self := with_cache_from (self s) (cache_from engine);
            proc := log (ev_r2d_build engine) (proc s1) |})
      /\ subdir engine = path (self s)
      /\ output_image_spec engine = image_spec (self s)
  end.
Proof.
  cbv zeta. rewrite build_run.
  set (s := run_ops W ops (construct W name0 path0 hsp p)).
  destruct (run_ops_self W ops (construct W name0 path0 hsp p)) as [l E].
  fold s in E.
  pose proof (run_ops_hint_ok W ops _ (construct_hint_ok W name0 path0 hsp p)) as H.
  fold s in H.
  destruct (fetch_parent_image W s) as [[found|e] s1] eqn:F; [|reflexivity].
  cbv zeta. rewrite E. cbn [construct self fst LocalImage_init with_cache_from
                            r2d cache_from subdir output_image_spec path image_spec].
  destruct found as [spec|].
  - repeat split.
  - assert (L : l = []).
    { destruct H as [H|[spec [_ H]]].
      - rewrite E in H. exact H.
      - specialize (H s eq_refl eq_refl). rewrite F in H. discriminate H. }
    rewrite L. repeat split.
Qed.

(** * Further properties *)

(** ** The probe, in any world *)

(** The loop tries a prefix of its offsets; the last one tried decides,
    all before it answered not-found. *)
Lemma fetch_loop_shape (W : World) (offs : list Z) (s : State) :
  let r := fetch_loop W (tags_at W offs) s in
  let nf := fun i => pull_not_found W (candidate W (self s) i) = true in
  exists tried rest,
    offs = (tried ++ rest)%list
    /\ proc (snd r) = attempts W (self s) tried (proc s)
    /\ match fst r with
       | Return None => rest = [] /\ Forall nf tried
       | Return (Some spec) =>
           exists before k,
             tried = (before ++ [k])%list /\ Forall nf before
             /\ spec = candidate W (self s) k
             /\ pull W spec = Return tt
       | Raise e =>
           exists before k d,
             tried = (before ++ [k])%list /\ Forall nf before
             /\ e = DockerError d
             /\ pull W (candidate W (self s) k) = Raise d
             /\ errors.isinstance d errors.NotFound = false
       end.
Proof.
  cbv zeta. revert s; induction offs as [|i offs IH]; intros s.
  - exists [], []. cbn. auto.
  - rewrite fetch_loop_step. cbv zeta.
    destruct (pull W (candidate W (self s) i)) as [[]|d] eqn:P.
    + exists [i], offs. cbn [fst snd proc]. repeat split.
      exists [], i. repeat split; auto.
    + destruct (errors.isinstance d errors.NotFound) eqn:N.
      * destruct (IH {| self := self s; proc := attempt W (self s) (proc s) i |})
          as (tried & rest & E & T & R).
        cbn [self proc] in *.
        assert (Hi : pull_not_found W (candidate W (self s) i) = true)
          by (unfold pull_not_found; rewrite P; exact N).
        exists (i :: tried), rest. split; [rewrite E; reflexivity|].
        split; [exact T|].
        destruct (fst (fetch_loop W (tags_at W offs)
                         {| self := self s; proc := attempt W (self s) (proc s) i |}))
          as [[spec|]|e].
        -- destruct R as (before & k & E1 & F & E2 & E3).
           exists (i :: before), k. rewrite E1. repeat split; auto.
        -- destruct R as [R1 R2]. split; auto.
        -- destruct R as (before & k & d' & E1 & F & E2 & E3 & E4).
           exists (i :: before), k, d'. rewrite E1. repeat split; auto.
      * exists [i], offs. cbn [fst snd proc]. repeat split.
        exists [], i, d. repeat split; auto.
Qed.

Lemma range_prefix (lo hi : Z) (tried rest : list Z) :
  range lo hi = (tried ++ rest)%list ->
  tried = range lo (lo + Z.of_nat (length tried))
  /\ (Z.of_nat (length tried) <= Z.of_nat (Z.to_nat (hi - lo))).
Proof.
  intros E.
  assert (L : (length tried <= Z.to_nat (hi - lo))%nat).
  { rewrite <- range_length, E, length_app. lia. }
  split; [|lia].
  destruct tried as [|x tried'].
  { cbn [length Z.of_nat]. unfold range.
    replace (lo + 0 - lo) with 0 by lia. reflexivity. }
  remember (x :: tried') as tried eqn:Q.
  assert (0 < length tried)%nat by (rewrite Q; cbn; lia). clear Q.
  rewrite (range_app lo (lo + Z.of_nat (length tried)) hi) in E by lia.
  apply (f_equal (firstn (length tried))) in E.
  rewrite !firstn_app in E.
  rewrite range_length in E.
  replace (lo + Z.of_nat (length tried) - lo) with (Z.of_nat (length tried)) in E by lia.
  rewrite Nat2Z.id, Nat.sub_diag in E. cbn [firstn] in E.
  rewrite !app_nil_r in E.
  rewrite firstn_all in E.
  rewrite firstn_all2 in E by (rewrite range_length; lia).
  symmetry. exact E.
Qed.

Lemma range_last (lo : Z) (before : list Z) (k : Z) :
  (before ++ [k])%list = range lo (lo + Z.of_nat (length (before ++ [k]))) ->
  k = lo + Z.of_nat (length before)
  /\ before = range lo k.
Proof.
  intros E. rewrite length_app in E. cbn [length] in E.
  replace (lo + Z.of_nat (length before + 1))
    with ((lo + Z.of_nat (length before)) + 1) in E by lia.
  rewrite range_snoc in E by lia.
  apply app_inj_tail in E. destruct E as [A B]. subst k. auto.
Qed.

(** The complete contract of [fetch_parent_image]: for some [k] from 0
    to 15 the oracle was asked for the offsets 1 to [k] and
    those candidates were pulled, in that order and nothing else;
    the candidates before [k] answered not-found; the result is the
    [k]-th candidate, which pulled, or [None] with [k = 15] and the
    last candidate not found as well, or the error of the [k]-th pull,
    which is a docker error that is no [NotFound]. *)
Lemma fetch_parent_image_shape (W : World) (s : State) :
  let r := fetch_parent_image W s in
  let cand := candidate W (self s) in
  exists k,
    0 <= k < 16
    /\ proc (snd r) = attempts W (self s) (range 1 (k + 1)) (proc s)
    /\ (forall i, 1 <= i < k -> pull_not_found W (cand i) = true)
    /\ match fst r with
       | Return None => k = 15 /\ pull_not_found W (cand 15) = true
       | Return (Some spec) => 1 <= k /\ spec = cand k /\ pull W spec = Return tt
       | Raise e =>
           exists d, 1 <= k /\ e = DockerError d /\ pull W (cand k) = Raise d
                     /\ errors.isinstance d errors.NotFound = false
       end.
Proof.
  cbv zeta. unfold fetch_parent_image. rewrite get_possible_parent_tags_range.
  destruct (fetch_loop_shape W (range 1 16) s) as (tried & rest & E & T & R).
  destruct (range_prefix 1 16 tried rest E) as [Et Len].
  change (Z.of_nat (Z.to_nat (16 - 1))) with 15 in Len.
  destruct (fst (fetch_loop W (tags_at W (range 1 16)) s)) as [[spec|]|e].
  - destruct R as (before & k & E1 & F & E2 & E3).
    rewrite E1 in Et. destruct (range_last 1 before k Et) as [Ek Eb].
    rewrite E1, length_app in Len. cbn [length] in Len.
    exists k. split; [lia|]. split; [|split].
    + rewrite T, E1, Eb, range_snoc by lia. reflexivity.
    + intros i Hi. rewrite Forall_forall in F. apply F. rewrite Eb.
      apply in_range. lia.
    + split; [lia|]. auto.
  - destruct R as [-> F]. rewrite app_nil_r in E.
    assert (L : length tried = 15%nat) by (rewrite <- E; reflexivity).
    exists 15. split; [lia|]. split; [|split].
    + rewrite T, <- E. reflexivity.
    + intros i Hi. rewrite Forall_forall in F. apply F. rewrite <- E.
      apply in_range. lia.
    + split; [reflexivity|]. rewrite Forall_forall in F. apply F.
      rewrite <- E. apply in_range. lia.
  - destruct R as (before & k & d & E1 & F & E2 & E3 & E4).
    rewrite E1 in Et. destruct (range_last 1 before k Et) as [Ek Eb].
    rewrite E1, length_app in Len. cbn [length] in Len.
    exists k. split; [lia|]. split; [|split].
    + rewrite T, E1, Eb, range_snoc by lia. reflexivity.
    + intros i Hi. rewrite Forall_forall in F. apply F. rewrite Eb.
      apply in_range. lia.
    + exists d. split; [lia|]. auto.
Qed.

(** X1: a spec that [fetch_parent_image] returns has been pulled with
    success: it is the candidate of some offset [k] of 1..15, every
    candidate before it answered not-found, and the pulls made are
    those of the offsets 1..[k], in that order. *)
Theorem X1_probe_result_was_pulled (W : World) (s : State) (spec : string)
        (H : fst (fetch_parent_image W s) = Return (Some spec)) :
  pull W spec = Return tt
  /\ exists k,
      1 <= k < 16
      /\ spec = candidate W (self s) k
      /\ (forall i, 1 <= i < k ->
                    pull_not_found W (candidate W (self s) i) = true)
      /\ pulled (trace (proc (snd (fetch_parent_image W s))))
         = (pulled (trace (proc s))
            ++ map (candidate W (self s)) (range 1 (k + 1)))%list.
Proof.
  destruct (fetch_parent_image_shape W s) as (k & K & T & F & R).
  rewrite H in R. destruct R as (K1 & E & P).
  split; [exact P|]. exists k. repeat split; try lia; auto.
  rewrite T.
  destruct (attempts_trace W (self s) (range 1 (k + 1)) (proc s)) as (A & _).
  exact A.
Qed.

Lemma X1_probe_result_was_pulled_witness :
  fst (fetch_parent_image world_short_history state_short_history)
  = Return (Some "hub:")
  /\ pull world_short_history "hub:" = Return tt.
Proof.
  split; [reflexivity|].
  apply (X1_probe_result_was_pulled world_short_history state_short_history "hub:"
                                    eq_refl).
Defined.

(** X2: [fetch_parent_image] returns [None] exactly when each of the
    fifteen candidates answers not-found. *)
Theorem X2_probe_none_iff (W : World) (s : State) :
  fst (fetch_parent_image W s) = Return None
  <-> (forall i, 1 <= i < 16 ->
                 pull_not_found W (candidate W (self s) i) = true).
Proof.
  split.
  - intros H. destruct (fetch_parent_image_shape W s) as (k & K & T & F & R).
    rewrite H in R. destruct R as [-> L].
    intros i Hi. destruct (Z.eq_dec i 15) as [->|N]; [exact L|].
    apply F. lia.
  - intros H. rewrite (fetch_parent_image_none W s H). reflexivity.
Qed.

(** X5: the first candidate that pulls wins: when the candidates before
    offset [k] answer not-found and the one at [k] pulls, the probe
    returns it, having asked for and pulled the offsets 1..[k] and no
    later one. *)
Theorem X5_probe_first_hit_wins (W : World) (s : State) (k : Z)
        (K : 1 <= k < 16)
        (H : forall i, 1 <= i < k ->
                       pull_not_found W (candidate W (self s) i) = true)
        (P : pull W (candidate W (self s) k) = Return tt) :
  fst (fetch_parent_image W s) = Return (Some (candidate W (self s) k))
  /\ pulled (trace (proc (snd (fetch_parent_image W s))))
     = (pulled (trace (proc s)) ++ map (candidate W (self s)) (range 1 (k + 1)))%list
  /\ offsets_asked (trace (proc (snd (fetch_parent_image W s))))
     = (offsets_asked (trace (proc s)) ++ map Some (range 1 (k + 1)))%list.
Proof.
  rewrite (fetch_parent_image_at W s k K H). cbv zeta.
  rewrite P. cbn [fst snd proc].
  destruct (attempts_trace W (self s) (range 1 (k + 1)) (proc s)) as (A & B & _).
  auto.
Qed.

Lemma X5_probe_first_hit_wins_witness :
  fst (fetch_parent_image world_short_history state_short_history)
  = Return (Some "hub:")
  /\ pulled (trace (proc (snd (fetch_parent_image world_short_history
                                                  state_short_history))))
     = ["hub:aaa1111"; "hub:"].
Proof.
  assert (K : 1 <= 2 < 16) by lia.
  assert (H : forall i, 1 <= i < 2 ->
                        pull_not_found world_short_history
                          (candidate world_short_history (self state_short_history) i)
                        = true).
  { intros i Hi. assert (i = 1) as -> by lia. reflexivity. }
  destruct (X5_probe_first_hit_wins world_short_history state_short_history 2
              K H eq_refl) as (A & B & _).
  split; [exact A|exact B].
Defined.

(** ** The generator, for any window *)

(** X6: for every [n], running [get_possible_parent_tags(n)] to its end
    yields the oracle's answers at the offsets 1 to [n - 1], in that
    order: [n - 1] tags, none at all when [n <= 1]; it asks the oracle
    exactly those questions, pulls nothing, and touches neither the
    instance nor the class's docker client. *)
Theorem X6_parent_tags_any_window (W : World) (s : State) (n : Z) :
  let r := consume (get_possible_parent_tags W n) s in
  fst r = Return (map (fun i => last_modified_commit W (path (self s)) (Some i))
                      (range 1 n))
  /\ length (range 1 n) = Z.to_nat (n - 1)
  /\ (forall i, In i (range 1 n) <-> 1 <= i < n)
  /\ offsets_asked (trace (proc (snd r)))
     = (offsets_asked (trace (proc s)) ++ map Some (range 1 n))%list
  /\ pulled (trace (proc (snd r))) = pulled (trace (proc s))
  /\ self (snd r) = self s
  /\ _docker (proc (snd r)) = _docker (proc s)
  /\ from_env_calls (proc (snd r)) = from_env_calls (proc s).
Proof.
  cbv zeta. rewrite get_possible_parent_tags_range, consume_tags_at.
  cbn [fst snd proc self trace _docker from_env_calls].
  split; [reflexivity|]. split; [apply range_length|].
  split; [intros i; apply in_range|].
  rewrite offsets_asked_app, pulled_app.
  assert (A : forall l, offsets_asked
                          (map (fun i => ev_last_modified_commit (path (self s)) (Some i)) l)
                        = map Some l).
  { induction l as [|x l IH]; [reflexivity|]. cbn. f_equal. exact IH. }
  assert (B : forall l, pulled
                          (map (fun i => ev_last_modified_commit (path (self s)) (Some i)) l)
                        = []).
  { induction l as [|x l IH]; [reflexivity|]. cbn. exact IH. }
  rewrite A, B, app_nil_r. repeat split.
Qed.

(** ** The build decision *)

(** X7: [needs_building] never falls through to the implicit
    [return None]: it returns a boolean or raises. *)
Theorem X7_needs_building_bool_or_raise (W : World) (s : State)
        (check_registry : bool) (commit_range : option string) :
  (exists b, fst (needs_building W check_registry commit_range s) = Return (Some b))
  \/ (exists e, fst (needs_building W check_registry commit_range s) = Raise e).
Proof.
  unfold needs_building.
  destruct check_registry, (truthy commit_range) eqn:T; cbn [andb orb negb].
  - right. eexists. reflexivity.
  - unfold bind. rewrite exists_in_registry_run.
    destruct (get_registry_data W (image_spec (self s))) as [m|e].
    + left. eexists. reflexivity.
    + destruct (manifest_absent (Raise e)); [left|right]; eexists; reflexivity.
  - destruct commit_range as [cr|]; [|discriminate T]. cbn in T. rewrite T.
    left. eexists. reflexivity.
  - right. eexists. reflexivity.
Qed.

Lemma pushes_app (t u : list event) : pushes (t ++ u) = (pushes t ++ pushes u)%list.
Proof. apply flat_map_app. Qed.

Lemma ensure_docker_pushes (p : Process) :
  pushes (trace (ensure_docker p)) = pushes (trace p).
Proof.
  unfold ensure_docker. destruct (_docker p); [reflexivity|]. cbn [trace].
  rewrite pushes_app. cbn. rewrite app_nil_r. reflexivity.
Qed.

Lemma needs_building_pushes (W : World) (s : State)
      (check_registry : bool) (commit_range : option string) :
  pushes (trace (proc (snd (needs_building W check_registry commit_range s))))
  = pushes (trace (proc s)).
Proof.
  unfold needs_building.
  destruct check_registry, (truthy commit_range) eqn:T; cbn [andb orb negb];
    try reflexivity.
  - unfold bind. rewrite exists_in_registry_run.
    assert (G : forall x : result (option bool) * State,
               proc (snd x)
               = log (ev_get_registry_data (client_of (proc s)) (image_spec (self s)))
                     (ensure_docker (proc s)) ->
               pushes (trace (proc (snd x))) = pushes (trace (proc s))).
    { intros x ->. cbn [log trace].
      rewrite pushes_app, ensure_docker_pushes. cbn. apply app_nil_r. }
    destruct (get_registry_data W (image_spec (self s))) as [m|e];
      [apply G; reflexivity|].
    destruct (manifest_absent (Raise e)); apply G; reflexivity.
  - destruct commit_range as [cr|]; [|discriminate T]. cbn in T. rewrite T.
    cbn. rewrite pushes_app. cbn. apply app_nil_r.
Qed.

(** X8: deciding has no side effect on images: whatever its arguments
    and its outcome, [needs_building] pulls nothing, builds and pushes
    nothing, asks no revision of the history oracle, and leaves the
    instance as it was. *)
Theorem X8_needs_building_no_side_effect (W : World) (s : State)
        (check_registry : bool) (commit_range : option string) :
  let r := needs_building W check_registry commit_range s in
  pulled (trace (proc (snd r))) = pulled (trace (proc s))
  /\ builds (trace (proc (snd r))) = builds (trace (proc s))
  /\ pushes (trace (proc (snd r))) = pushes (trace (proc s))
  /\ offsets_asked (trace (proc (snd r))) = offsets_asked (trace (proc s))
  /\ self (snd r) = self s.
Proof.
  cbv zeta.
  split; [|split; [|split; [apply needs_building_pushes|split;
                                [|apply needs_building_self]]]];
    unfold needs_building;
    destruct check_registry, (truthy commit_range) eqn:T; cbn [andb orb negb];
    try reflexivity.
  all: try (destruct commit_range as [cr|]; [|discriminate T]; cbn in T; rewrite T;
            cbn; rewrite ?pulled_app, ?builds_app, ?offsets_asked_app; cbn;
            apply app_nil_r).
  all: unfold bind; rewrite exists_in_registry_run;
    destruct (ensure_docker_trace (proc s)) as (A & B & C);
    destruct (get_registry_data W (image_spec (self s))) as [m|e];
    [|destruct (manifest_absent (Raise e))];
    unfold ret; cbn [snd proc log trace];
    rewrite ?pulled_app, ?builds_app, ?offsets_asked_app, ?A, ?B, ?C; cbn;
    apply app_nil_r.
Qed.

(** ** The instance *)

(** X9: the tag of an instance is never empty: it is the oracle's
    answer or [latest]; so the image spec always carries a tag, and
    this stays so through any run of operations. *)
Theorem X9_tag_never_empty (W : World) (name0 path0 hsp : string)
        (p : Process) (ops : list operation) :
  let s := run_ops W ops (construct W name0 path0 hsp p) in
  str_truthy (tag (self s)) = true
  /\ (tag (self s) = "latest"
      \/ tag (self s) = last_modified_commit W path0 None)
  /\ str_truthy (image_spec (self s)) = true.
Proof.
  cbv zeta.
  destruct (run_ops_self W ops (construct W name0 path0 hsp p)) as [l E].
  rewrite E. cbn [with_cache_from tag image_spec construct self fst LocalImage_init].
  split; [|split].
  - destruct (str_truthy (last_modified_commit W path0 None)) eqn:T;
      [exact T|reflexivity].
  - destruct (str_truthy (last_modified_commit W path0 None)); auto.
  - apply spec_truthy.
Qed.

(** ** Publishing *)

Lemma push_run (W : World) (s : State) :
  push W s =
  (match r2d_push_image W (r2d (self s)) with
   | Return _ => Return tt
   | Raise msg => Raise (BuildEngineError msg)
   end,
   {| self := self s; proc := log (ev_r2d_push_image (r2d (self s))) (proc s) |}).
Proof.
  unfold push, self_r2d_push_image, bind, get_self, emit, call_engine.
  cbn [self proc]. destruct (r2d_push_image W (r2d (self s))) as [[]|msg]; reflexivity.
Qed.

(** X10: on an instance, whatever was run on it since its construction,
    [push] makes one call, the engine's push, on the [Repo2Docker]
    object whose output spec is the instance's [name:tag] and whose
    context is its path; it asks nothing of the registry client or the
    oracle, leaves the instance as it was, and raises the engine's
    failure when the push fails. *)
Theorem X10_push_publishes_image_spec (W : World) (name0 path0 hsp : string)
        (p : Process) (ops : list operation) :
  let me0 := fst (LocalImage_init W name0 path0 hsp p) in
  let s := run_ops W ops (construct W name0 path0 hsp p) in
  exists l,
    let engine :=
      {| subdir := path0;
         output_image_spec := name0 ++ ":" ++ tag me0;
         user_id := 1000;
         user_name := "jovyan";
         target_repo_dir := "/srv/repo";
         cache_from := l |} in
    push W s
    = (match r2d_push_image W engine with
       | Return _ => Return tt
       | Raise msg => Raise (BuildEngineError msg)
       end,
       {| self := self s; proc := log (ev_r2d_push_image engine) (proc s) |})
    /\ output_image_spec engine = image_spec (self s).
Proof.
  cbv zeta. rewrite push_run.
  destruct (run_ops_self W ops (construct W name0 path0 hsp p)) as [l E].
  exists l. rewrite E. split; reflexivity.
Qed.

Lemma attempt_pushes (W : World) (me : LocalImage) (p : Process) (i : Z) :
  pushes (trace (attempt W me p i)) = pushes (trace p).
Proof.
  unfold attempt. cbv zeta. cbn [log trace].
  rewrite pushes_app, ensure_docker_pushes. cbn [log trace].
  rewrite !pushes_app. cbn. rewrite !app_nil_r. reflexivity.
Qed.

Lemma fetch_loop_pushes (W : World) (offs : list Z) (s : State) :
  pushes (trace (proc (snd (fetch_loop W (tags_at W offs) s))))
  = pushes (trace (proc s)).
Proof.
  revert s; induction offs as [|i offs IH]; intros s; [reflexivity|].
  rewrite fetch_loop_step. cbv zeta.
  pose proof (attempt_pushes W (self s) (proc s) i) as A.
  destruct (pull W (candidate W (self s) i)) as [u|e]; [exact A|].
  destruct (errors.isinstance e errors.NotFound); [|exact A].
  rewrite (IH {| self := self s; proc := attempt W (self s) (proc s) i |}).
  exact A.
Qed.

(** X11: of all operations only [push] publishes: [build], the probe,
    the decision and the others leave the list of pushes as it was, and
    [push] adds one push of the instance's [Repo2Docker] object. *)
Theorem X11_only_push_publishes (W : World) (o : operation) (s : State) :
  pushes (trace (proc (snd (run_op W o s))))
  = (pushes (trace (proc s))
     ++ match o with
        | op_push => [r2d (self s)]
        | _ => []
        end)%list.
Proof.
  destruct o; cbn [run_op]; rewrite ?discard_self, ?app_nil_r.
  - rewrite docker_run. apply ensure_docker_pushes.
  - rewrite exists_in_registry_run. cbn [snd proc log trace].
    rewrite pushes_app, ensure_docker_pushes. cbn. apply app_nil_r.
  - rewrite get_possible_parent_tags_range, consume_tags_at.
    cbn [snd proc trace]. rewrite pushes_app.
    assert (A : forall l, pushes
                            (map (fun i => ev_last_modified_commit (path (self s)) (Some i)) l)
                          = []).
    { induction l as [|x l IH]; [reflexivity|]. cbn. exact IH. }
    rewrite A. apply app_nil_r.
  - apply fetch_loop_pushes.
  - apply needs_building_pushes.
  - rewrite build_run.
    pose proof (fetch_loop_pushes W (range 1 16) s) as A.
    unfold fetch_parent_image. rewrite get_possible_parent_tags_range.
    destruct (fetch_loop W (tags_at W (range 1 16)) s) as [[found|e] s1];
      cbn [snd] in *; [|exact A].
    cbv zeta. cbn [snd proc log trace]. rewrite pushes_app, A. cbn.
    apply app_nil_r.
  - rewrite push_run. cbn [snd proc log trace]. rewrite pushes_app. reflexivity.
Qed.

(** ** Clients in the trace *)

Lemma clients_used_app (t u : list event) :
  clients_used (t ++ u) = (clients_used t ++ clients_used u)%list.
Proof. apply flat_map_app. Qed.

Lemma clients_made_app (t u : list event) :
  clients_made (t ++ u) = (clients_made t ++ clients_made u)%list.
Proof. apply flat_map_app. Qed.

(** ** [get_config] *)

Lemma dict_get_set_same (k v : string) (d : dict) :
  dict_get k (dict_set k v d) = Some v.
Proof.
  induction d as [|[k' v'] d IH]; cbn.
  - rewrite String.eqb_refl. reflexivity.
  - destruct (String.eqb_spec k' k) as [->|N]; cbn.
    + rewrite String.eqb_refl. reflexivity.
    + destruct (String.eqb_spec k' k); [contradiction|]. exact IH.
Qed.

Lemma dict_get_set_other (k k2 v : string) (d : dict) :
  k2 <> k -> dict_get k2 (dict_set k v d) = dict_get k2 d.
Proof.
  intros N. induction d as [|[k' v'] d IH]; cbn.
  - destruct (String.eqb_spec k k2); [congruence|reflexivity].
  - destruct (String.eqb_spec k' k) as [->|N']; cbn.
    + destruct (String.eqb_spec k k2); [congruence|reflexivity].
    + destruct (String.eqb_spec k' k2); [reflexivity|exact IH].
Qed.

Lemma dict_set_parameters (v : string) (d : dict) :
  forallb (fun kv => is_parameter (fst kv)) (dict_set "path" v d)
  = forallb (fun kv => is_parameter (fst kv)) d.
Proof.
  induction d as [|[k' v'] d IH]; [reflexivity|]. cbn [dict_set].
  destruct (String.eqb_spec k' "path") as [->|N]; cbn [forallb fst].
  - reflexivity.
  - rewrite IH. reflexivity.
Qed.

(** Binding an entry whose path has been set. *)
Lemma bind_kwargs_normalized (i : dict) (q : string) :
  bind_kwargs (dict_set "path" q i) =
  if forallb (fun kv => is_parameter (fst kv)) i then
    match dict_get "name" i with
    | Some n =>
        Return (n, q,
                match dict_get "helm_substitution_path" i with
                | Some h => h
                | None => default_helm_substitution_path
                end)
    | None => Raise (TypeError "missing required argument")
    end
  else Raise (TypeError "unexpected keyword argument").
Proof.
  unfold bind_kwargs. rewrite dict_set_parameters.
  rewrite dict_get_set_same.
  rewrite !dict_get_set_other by discriminate.
  destruct (forallb _ i); [|reflexivity].
  destruct (dict_get "name" i); reflexivity.
Qed.

Lemma normalize_paths_all (os : OS) (dp : string) (l : list dict) :
  forallb has_path l = true ->
  normalize_paths os dp l
  = Return (map (fun i => dict_set "path" (join os dp (entry_path i)) i) l).
Proof.
  induction l as [|i l IH]; [reflexivity|]. cbn [forallb normalize_paths map].
  intros H. apply andb_prop in H. destruct H as [H1 H2].
  unfold has_path, entry_path in *.
  destruct (dict_get "path" i); [|discriminate H1].
  rewrite (IH H2). reflexivity.
Qed.

Lemma normalize_paths_missing (os : OS) (dp : string) (l : list dict) :
  forallb has_path l = false ->
  normalize_paths os dp l = Raise (KeyError "path").
Proof.
  induction l as [|i l IH]; [discriminate|]. cbn [forallb normalize_paths].
  unfold has_path at 1. destruct (dict_get "path" i); [|reflexivity].
  cbn [is_not_None andb]. intros H. rewrite (IH H). reflexivity.
Qed.

Lemma bind_kwargs_valid (os : OS) (dp : string) (i : dict) :
  valid_entry i = true ->
  bind_kwargs (dict_set "path" (join os dp (entry_path i)) i)
  = Return (entry_name i, join os dp (entry_path i), entry_helm_substitution_path i).
Proof.
  unfold valid_entry. intros H.
  apply andb_prop in H. destruct H as [H H3].
  apply andb_prop in H. destruct H as [H1 H2].
  rewrite bind_kwargs_normalized, H1.
  unfold entry_name, entry_helm_substitution_path.
  destruct (dict_get "name" i); [reflexivity|discriminate H2].
Qed.

Lemma bind_kwargs_invalid (os : OS) (dp : string) (i : dict) :
  has_path i = true -> valid_entry i = false ->
  exists msg,
    bind_kwargs (dict_set "path" (join os dp (entry_path i)) i)
    = Raise (TypeError msg).
Proof.
  unfold valid_entry, has_path. intros P H. rewrite P, andb_true_r in H.
  rewrite bind_kwargs_normalized.
  destruct (forallb _ i); [|eexists; reflexivity].
  destruct (dict_get "name" i); [discriminate H|eexists; reflexivity].
Qed.

(** The instances made from a list of acceptable entries, and what
    making them adds to the process: one question to the history
    oracle each, nothing for the registry. *)
Lemma construct_all_valid (W : World) (os : OS) (dp : string) (l : list dict)
      (p : Process) :
  forallb valid_entry l = true ->
  let r := construct_all W
             (map (fun i => dict_set "path" (join os dp (entry_path i)) i) l) p in
  fst r = Return (map (fun i => fst (LocalImage_init W (entry_name i)
                                       (join os dp (entry_path i))
                                       (entry_helm_substitution_path i)
                                       fresh_process)) l)
  /\ offsets_asked (trace (snd r))
     = (offsets_asked (trace p) ++ repeat None (length l))%list
  /\ clients_used (trace (snd r)) = clients_used (trace p)
  /\ _docker (snd r) = _docker p
  /\ from_env_calls (snd r) = from_env_calls p.
Proof.
  cbv zeta. revert p; induction l as [|i l IH]; intros p H.
  - cbn. rewrite app_nil_r. auto.
  - cbn [forallb] in H. apply andb_prop in H. destruct H as [H1 H2].
    cbn [map construct_all]. rewrite (bind_kwargs_valid os dp i H1).
    set (p1 := snd (LocalImage_init W (entry_name i) (join os dp (entry_path i))
                      (entry_helm_substitution_path i) p)).
    change (LocalImage_init W (entry_name i) (join os dp (entry_path i))
              (entry_helm_substitution_path i) p)
      with (fst (LocalImage_init W (entry_name i) (join os dp (entry_path i))
                   (entry_helm_substitution_path i) fresh_process), p1).
    cbv iota beta.
    destruct (IH p1 H2) as (A & B & C & D & F).
    destruct (construct_all W _ p1) as [[instances|e] p2]; cbn [fst snd] in *;
      [|discriminate A].
    injection A as A. rewrite A, B, C, D, F. unfold p1.
    cbn [LocalImage_init snd log trace _docker from_env_calls length repeat].
    rewrite !offsets_asked_app, !clients_used_app. cbn.
    rewrite !app_nil_r, <- app_assoc. repeat split.
Qed.

Lemma normalize_paths_raises (os : OS) (dp : string) (l : list dict) (e : config_exn) :
  normalize_paths os dp l = Raise e -> e = KeyError "path".
Proof.
  destruct (forallb has_path l) eqn:H.
  - rewrite (normalize_paths_all os dp l H). discriminate.
  - rewrite (normalize_paths_missing os dp l H). congruence.
Qed.

Lemma bind_kwargs_raises (i : dict) (e : config_exn) :
  bind_kwargs i = Raise e -> exists msg, e = TypeError msg.
Proof.
  unfold bind_kwargs. destruct (forallb _ i).
  - destruct (dict_get "name" i), (dict_get "path" i); intros [= <-];
      eexists; reflexivity.
  - intros [= <-]. eexists; reflexivity.
Qed.

Lemma construct_all_raises (W : World) (l : list dict) (p : Process) (e : config_exn) :
  fst (construct_all W l p) = Raise e -> exists msg, e = TypeError msg.
Proof.
  revert p; induction l as [|i l IH]; intros p; [discriminate|].
  cbn [construct_all]. destruct (bind_kwargs i) as [[[n q] h]|e'] eqn:B.
  - destruct (LocalImage_init W n q h p) as [me p1].
    specialize (IH p1). destruct (construct_all W l p1) as [[instances|e'] p2];
      cbn [fst] in *; [discriminate|exact IH].
  - cbn [fst]. intros [= <-]. exact (bind_kwargs_raises i e' B).
Qed.

(** X13: [get_config] returns the empty dict exactly when the
    deployment has no [hubploy.yaml]; it then constructs nothing and
    leaves the process as it was. *)
Theorem X13_get_config_empty_iff_no_file (W : World) (os : OS)
        (deployment : string) (p : Process) :
  let r := get_config W os deployment p in
  (fst r = Return EmptyDict
   <-> path_exists os (config_path_of os deployment) = false)
  /\ (path_exists os (config_path_of os deployment) = false -> snd r = p).
Proof.
  cbv zeta. unfold get_config.
  destruct (path_exists os (config_path_of os deployment)); cbn [negb].
  - split; [|discriminate]. split; [|discriminate].
    destruct (select_images _) as [l0|e]; [|discriminate].
    destruct (normalize_paths _ _ l0) as [l1|e]; [|discriminate].
    destruct (construct_all W l1 p) as [[instances|e] p']; discriminate.
  - split; [split; reflexivity|reflexivity].
Qed.

(** X15: a [KeyError] or the unbound-variable error of [get_config] is
    raised before any instance is constructed: the process is as it
    was, the history oracle has not been asked. *)
Theorem X15_get_config_early_errors (W : World) (os : OS)
        (deployment : string) (p : Process) :
  match fst (get_config W os deployment p) with
  | Raise (KeyError _) | Raise (UnboundLocalError _) =>
      snd (get_config W os deployment p) = p
  | _ => True
  end.
Proof.
  unfold get_config.
  destruct (path_exists os (config_path_of os deployment)); cbn [negb];
    [|exact I].
  destruct (select_images _) as [l0|e]; [|destruct e; cbn; auto].
  destruct (normalize_paths _ _ l0) as [l1|e]; [|destruct e; cbn; auto].
  pose proof (construct_all_raises W l1 p) as R.
  destruct (construct_all W l1 p) as [[instances|e] p']; cbn [fst snd] in *;
    [exact I|].
  destruct (R e eq_refl) as [msg ->]. exact I.
Qed.

(** X16: the single-image format: when the [images] section has an
    [image_name], [get_config] makes exactly one instance, named by it,
    rooted at the directory [image] of the deployment and substituted
    at [image_config_path], whatever the [images] list of the section
    holds. *)
Theorem X16_get_config_single_image (W : World) (os : OS) (deployment : string)
        (p : Process) (ic : ImagesConfig) (n h : string)
        (E : path_exists os (config_path_of os deployment) = true)
        (C : config_images (yaml_load os (config_path_of os deployment)) = Some ic)
        (N : image_name ic = Some n)
        (H : image_config_path ic = Some h) :
  let q := join os (deployment_path_of os deployment) "image" in
  get_config W os deployment p
  = (Return (Loaded (yaml_load os (config_path_of os deployment))
                    [fst (LocalImage_init W n q h p)]),
     snd (LocalImage_init W n q h p)).
Proof.
  cbv zeta. unfold get_config, select_images. rewrite E, C, N, H. reflexivity.
Qed.

Lemma X16_get_config_single_image_witness :
  path_exists (os_example config_single)
              (config_path_of (os_example config_single) "prod") = true
  /\ fst (get_config world_touched (os_example config_single) "prod" fresh_process)
     = Return (Loaded config_single
                 [fst (LocalImage_init world_touched "hub/user"
                         "/repo/deployments/prod/image" "singleuser.image"
                         fresh_process)]).
Proof.
  split; [reflexivity|].
  rewrite (X16_get_config_single_image world_touched (os_example config_single)
             "prod" fresh_process _ "hub/user" "singleuser.image"
             eq_refl eq_refl eq_refl eq_refl).
  reflexivity.
Defined.

(** X17: the list format: when every entry of the [images] list has a
    [name] and a [path] and no key that [__init__] does not take,
    [get_config] returns the config with one instance per entry, in
    the order of the list, each named by its entry and rooted at its
    entry's path joined to the deployment directory; each instance is
    consistent ([image_spec = name:tag], build context and output spec
    set from them); the history oracle is asked once per entry and the
    registry not at all. *)
Theorem X17_get_config_image_list (W : World) (os : OS) (deployment : string)
        (p : Process) (ic : ImagesConfig) (l : list dict)
        (E : path_exists os (config_path_of os deployment) = true)
        (C : config_images (yaml_load os (config_path_of os deployment)) = Some ic)
        (N : image_name ic = None)
        (L : images ic = Some l)
        (V : forallb valid_entry l = true) :
  let r := get_config W os deployment p in
  exists instances,
    fst r = Return (Loaded (yaml_load os (config_path_of os deployment)) instances)
    /\ map name instances = map entry_name l
    /\ map path instances
       = map (fun i => join os (deployment_path_of os deployment) (entry_path i)) l
    /\ map helm_substitution_path instances = map entry_helm_substitution_path l
    /\ Forall (fun me => image_spec me = name me ++ ":" ++ tag me
                         /\ subdir (r2d me) = path me
                         /\ output_image_spec (r2d me) = image_spec me
                         /\ cache_from (r2d me) = [])
              instances
    /\ offsets_asked (trace (snd r))
       = (offsets_asked (trace p) ++ repeat None (length l))%list
    /\ clients_used (trace (snd r)) = clients_used (trace p)
    /\ _docker (snd r) = _docker p.
Proof.
  cbv zeta. unfold get_config, select_images. rewrite E, C, N, L. cbn [negb].
  assert (P : forallb has_path l = true).
  { rewrite forallb_forall in *. intros i Hi. specialize (V i Hi).
    unfold valid_entry in V. apply andb_prop in V. apply V. }
  rewrite (normalize_paths_all os _ l P).
  destruct (construct_all_valid W os (deployment_path_of os deployment) l p V)
    as (A & B & D & F & _).
  destruct (construct_all W _ p) as [[instances|e] p']; cbn [fst snd] in *;
    [|discriminate A].
  injection A as A. exists instances. split; [reflexivity|].
  rewrite A, !map_map. cbn [LocalImage_init fst name path helm_substitution_path].
  repeat split; auto.
  apply Forall_forall. intros me Hme. apply in_map_iff in Hme.
  destruct Hme as (i & <- & _). cbn. auto.
Qed.

Lemma X17_get_config_image_list_witness :
  forallb valid_entry
          [[("name", "hub/user"); ("path", "images/user")];
           [("name", "hub/postgres"); ("path", "images/db");
            ("helm_substitution_path", "db.image")]] = true
  /\ exists instances,
      fst (get_config world_touched (os_example config_list) "prod" fresh_process)
      = Return (Loaded config_list instances)
      /\ map name instances = ["hub/user"; "hub/postgres"]
      /\ map path instances
         = ["/repo/deployments/prod/images/user"; "/repo/deployments/prod/images/db"]
      /\ map image_spec instances = ["hub/user:0a1b2c3"; "hub/postgres:0a1b2c3"].
Proof.
  split; [reflexivity|].
  destruct (X17_get_config_image_list world_touched (os_example config_list)
              "prod" fresh_process _ _ eq_refl eq_refl eq_refl eq_refl eq_refl)
    as (instances & A & B & C & _).
  exists instances. split; [exact A|]. split; [exact B|]. split; [exact C|].
  cbn in A. injection A as <-. reflexivity.
Defined.

(** X18: an entry of the [images] list without a [path] makes
    [get_config] raise [KeyError] wherever the entry stands in the
    list, before any instance is constructed. *)
Theorem X18_get_config_missing_path (W : World) (os : OS) (deployment : string)
        (p : Process) (ic : ImagesConfig) (l : list dict)
        (E : path_exists os (config_path_of os deployment) = true)
        (C : config_images (yaml_load os (config_path_of os deployment)) = Some ic)
        (N : image_name ic = None)
        (L : images ic = Some l)
        (X : existsb (fun i => negb (has_path i)) l = true) :
  get_config W os deployment p = (Raise (KeyError "path"), p).
Proof.
  unfold get_config, select_images. rewrite E, C, N, L. cbn [negb].
  rewrite normalize_paths_missing; [reflexivity|].
  destruct (forallb has_path l) eqn:F; [|reflexivity].
  apply existsb_exists in X. destruct X as (i & Hi & Hp).
  rewrite forallb_forall in F. rewrite (F i Hi) in Hp. discriminate Hp.
Qed.

Lemma X18_get_config_missing_path_witness :
  existsb (fun i => negb (has_path i))
          [[("name", "hub/user"); ("path", "images/user")];
           [("name", "hub/postgres")]] = true
  /\ get_config world_touched (os_example config_no_path) "prod" fresh_process
     = (Raise (KeyError "path"), fresh_process).
Proof.
  split; [reflexivity|].
  apply (X18_get_config_missing_path world_touched (os_example config_no_path)
           "prod" fresh_process _ _ eq_refl eq_refl eq_refl eq_refl eq_refl).
Defined.

Lemma construct_all_stops (W : World) (os : OS) (dp : string)
      (pre post : list dict) (bad : dict) (p : Process) :
  forallb valid_entry pre = true ->
  has_path bad = true ->
  valid_entry bad = false ->
  let norm := fun i => dict_set "path" (join os dp (entry_path i)) i in
  let r := construct_all W (map norm (pre ++ bad :: post)) p in
  (exists msg, fst r = Raise (TypeError msg))
  /\ offsets_asked (trace (snd r))
     = (offsets_asked (trace p) ++ repeat None (length pre))%list.
Proof.
  cbv zeta. revert p; induction pre as [|i pre IH]; intros p V P B.
  - cbn [app map construct_all].
    destruct (bind_kwargs_invalid os dp bad P B) as [msg M]. rewrite M.
    cbn. rewrite app_nil_r. split; [eexists|]; reflexivity.
  - cbn [forallb] in V. apply andb_prop in V. destruct V as [V1 V2].
    cbn [app map construct_all]. rewrite (bind_kwargs_valid os dp i V1).
    set (p1 := snd (LocalImage_init W (entry_name i) (join os dp (entry_path i))
                      (entry_helm_substitution_path i) p)).
    change (LocalImage_init W (entry_name i) (join os dp (entry_path i))
              (entry_helm_substitution_path i) p)
      with (fst (LocalImage_init W (entry_name i) (join os dp (entry_path i))
                   (entry_helm_substitution_path i) fresh_process), p1).
    cbv iota beta.
    destruct (IH p1 V2 P B) as ([msg M] & T).
    destruct (construct_all W _ p1) as [[instances|e] p2]; cbn [fst snd] in *;
      [discriminate M|].
    split; [exists msg; exact M|]. rewrite T. unfold p1.
    cbn [LocalImage_init snd log trace length repeat].
    rewrite !offsets_asked_app. cbn. rewrite !app_nil_r, <- app_assoc.
    reflexivity.
Qed.

(** X19: an entry with a key that [__init__] does not take, or without
    a [name], makes [get_config] raise [TypeError]; the entries before
    it have been constructed by then (the oracle was asked once for
    each), those after it have not, and no config is returned. *)
Theorem X19_get_config_bad_entry (W : World) (os : OS) (deployment : string)
        (p : Process) (ic : ImagesConfig) (pre post : list dict) (bad : dict)
        (E : path_exists os (config_path_of os deployment) = true)
        (C : config_images (yaml_load os (config_path_of os deployment)) = Some ic)
        (N : image_name ic = None)
        (L : images ic = Some (pre ++ bad :: post)%list)
        (P : forallb has_path (pre ++ bad :: post) = true)
        (V : forallb valid_entry pre = true)
        (B : valid_entry bad = false) :
  let r := get_config W os deployment p in
  (exists msg, fst r = Raise (TypeError msg))
  /\ offsets_asked (trace (snd r))
     = (offsets_asked (trace p) ++ repeat None (length pre))%list.
Proof.
  cbv zeta. unfold get_config, select_images. rewrite E, C, N, L. cbn [negb].
  rewrite (normalize_paths_all os _ _ P).
  assert (Pb : has_path bad = true).
  { rewrite forallb_forall in P. apply P. apply in_elt. }
  destruct (construct_all_stops W os (deployment_path_of os deployment)
              pre post bad p V Pb B) as ([msg M] & T).
  destruct (construct_all W _ p) as [[instances|e] p2]; cbn [fst snd] in *;
    [discriminate M|].
  injection M as ->.
  split; [exists msg; reflexivity|exact T].
Qed.

Lemma X19_get_config_bad_entry_witness :
  valid_entry [("name", "hub/postgres"); ("path", "images/db");
               ("dockerfile", "Dockerfile.db")] = false
  /\ fst (get_config world_touched (os_example config_bad_key) "prod" fresh_process)
     = Raise (TypeError "unexpected keyword argument")
  /\ offsets_asked
       (trace (snd (get_config world_touched (os_example config_bad_key) "prod"
                               fresh_process)))
     = [None].
Proof.
  split; [reflexivity|].
  destruct (X19_get_config_bad_entry world_touched (os_example config_bad_key)
              "prod" fresh_process _
              [[("name", "hub/user"); ("path", "images/user")]]
              [[("name", "hub/extra"); ("path", "images/extra")]]
              [("name", "hub/postgres"); ("path", "images/db");
               ("dockerfile", "Dockerfile.db")]
              eq_refl eq_refl eq_refl eq_refl eq_refl eq_refl eq_refl)
    as (_ & T).
  split; [reflexivity|exact T].
Defined.

(** * With a daemon that may refuse *)

(** ** The methods, run *)

Lemma daemon_docker_run (D : Daemon.t) (s : State) :
  Daemon.docker D s =
  match Daemon.acquire D (proc s) with
  | (Return c, p') => (Return c, {| self := self s; proc := p' |})
  | (Raise e, p') => (Raise (DockerError e), {| self := self s; proc := p' |})
  end.
Proof.
  destruct s as [me [d k t]].
  unfold Daemon.docker, Daemon.acquire, Daemon.docker_from_env, bind.
  cbn [proc self _docker from_env_calls]. destruct d as [c|]; [reflexivity|].
  destruct (D k); reflexivity.
Qed.

Lemma acquire_stored (D : Daemon.t) (p : Process) (c : DockerClient) :
  _docker p = Some c -> Daemon.acquire D p = (Return c, p).
Proof. intros E. unfold Daemon.acquire. rewrite E. reflexivity. Qed.

Lemma acquire_up (p : Process) :
  Daemon.acquire Daemon.up p = (Return (client_of p), ensure_docker p).
Proof.
  unfold Daemon.acquire, client_of, ensure_docker, Daemon.up.
  destruct (_docker p); reflexivity.
Qed.

(** What [acquire] answers is stored once it returns. *)
Lemma acquire_returns (D : Daemon.t) (p : Process) (c : DockerClient) :
  fst (Daemon.acquire D p) = Return c ->
  _docker (snd (Daemon.acquire D p)) = Some c.
Proof.
  unfold Daemon.acquire. destruct (_docker p) as [c0|] eqn:E.
  - cbn. intros [= <-]. exact E.
  - destruct (D (from_env_calls p)); [discriminate|].
    cbn [fst snd]. intros [= <-]. unfold ensure_docker. rewrite E. reflexivity.
Qed.


Lemma daemon_exists_in_registry_run (D : Daemon.t) (W : World) (s : State) :
  Daemon.exists_in_registry D W s =
  match Daemon.acquire D (proc s) with
  | (Raise e, p') =>
      (if manifest_absent (Raise e) then Return false else Raise (DockerError e),
       {| self := self s; proc := p' |})
  | (Return c, p') =>
      (match get_registry_data W (image_spec (self s)) with
       | Return m => Return (is_not_None m)
       | Raise e =>
           if manifest_absent (Raise e) then Return false
           else Raise (DockerError e)
       end,
       {| self := self s;
          proc := log (ev_get_registry_data c (image_spec (self s))) p' |})
  end.
Proof.
  unfold Daemon.exists_in_registry, try_except, bind, get_self,
    images_get_registry_data.
  rewrite daemon_docker_run. cbn [self proc].
  destruct (Daemon.acquire D (proc s)) as [[c|e] p'].
  - unfold emit, bind, call_docker. cbn [self proc].
    destruct (get_registry_data W (image_spec (self s))) as [m|e]; [reflexivity|].
    unfold manifest_absent, raise, ret.
    destruct (errors.isinstance e errors.ImageNotFound); [reflexivity|].
    destruct (errors.isinstance e errors.APIError); [|reflexivity].
    cbn [orb andb]. destruct (String.prefix _ _); reflexivity.
  - unfold manifest_absent, raise, ret.
    destruct (errors.isinstance e errors.ImageNotFound); [reflexivity|].
    destruct (errors.isinstance e errors.APIError); [|reflexivity].
    cbn [orb andb]. destruct (String.prefix _ _); reflexivity.
Qed.

Lemma daemon_fetch_body_run (D : Daemon.t) (W : World) (s : State) (tag0 : string) :
  Daemon.fetch_body D W tag0 s =
  let spec := name (self s) ++ ":" ++ tag0 in
  let p2 := log (ev_print ("Trying to fetch parent image " ++ spec)) (proc s) in
  match Daemon.acquire D p2 with
  | (Raise e, p') =>
      (if errors.isinstance e errors.NotFound then Return Continue
       else Raise (DockerError e),
       {| self := self s; proc := p' |})
  | (Return c, p') =>
      (match pull W spec with
       | Return _ => Return (Returned (Some spec))
       | Raise e =>
           if errors.isinstance e errors.NotFound then Return Continue
           else Raise (DockerError e)
       end,
       {| self := self s; proc := log (ev_pull c spec) p' |})
  end.
Proof.
  unfold Daemon.fetch_body, try_except, bind, get_self, emit, images_pull.
  cbn [self proc]. rewrite daemon_docker_run. cbn [self proc]. cbv zeta.
  destruct (Daemon.acquire D _) as [[c|e] p'].
  - unfold bind, emit, call_docker. cbn [self proc].
    destruct (pull W (name (self s) ++ ":" ++ tag0)) as [[]|e]; [reflexivity|].
    unfold raise, ret.
    destruct (errors.isinstance e errors.NotFound); reflexivity.
  - unfold raise, ret.
    destruct (errors.isinstance e errors.NotFound); reflexivity.
Qed.

Lemma daemon_fetch_loop_step (D : Daemon.t) (W : World) (s : State) (i : Z)
      (rest : list Z) :
  Daemon.fetch_loop D W (tags_at W (i :: rest)) s =
  match Daemon.fetch_body D W (last_modified_commit W (path (self s)) (Some i))
          {| self := self s;
             proc := log (ev_last_modified_commit (path (self s)) (Some i)) (proc s) |}
  with
  | (Return (Returned v), s') => (Return v, s')
  | (Return Continue, s') => Daemon.fetch_loop D W (tags_at W rest) s'
  | (Raise e, s') => (Raise e, s')
  end.
Proof.
  cbn [tags_at map Daemon.fetch_loop]. fold (tags_at W rest).
  unfold bind at 1. unfold bind at 1.
  unfold get_self, gitutils_last_modified_commit, bind at 1, emit, ret.
  cbn [self proc]. unfold bind at 1.
  destruct (Daemon.fetch_body D W _ _) as [[[v|]|e] s']; reflexivity.
Qed.

Lemma daemon_fetch_body_self (D : Daemon.t) (W : World) (s : State) (tag0 : string) :
  self (snd (Daemon.fetch_body D W tag0 s)) = self s.
Proof.
  rewrite daemon_fetch_body_run. cbv zeta.
  destruct (Daemon.acquire D _) as [[c|e] p']; reflexivity.
Qed.

Lemma daemon_fetch_body_returns (D : Daemon.t) (W : World) (s : State)
      (tag0 : string) (v : option string) :
  fst (Daemon.fetch_body D W tag0 s) = Return (Returned v) ->
  v = Some (name (self s) ++ ":" ++ tag0)
  /\ pull W (name (self s) ++ ":" ++ tag0) = Return tt.
Proof.
  rewrite daemon_fetch_body_run. cbv zeta.
  destruct (Daemon.acquire D _) as [[c|e] p']; cbn [fst].
  - destruct (pull W _) as [[]|e].
    + intros [= <-]. auto.
    + destruct (errors.isinstance e errors.NotFound); discriminate.
  - destruct (errors.isinstance e errors.NotFound); discriminate.
Qed.

Lemma daemon_fetch_loop_self (D : Daemon.t) (W : World) (offs : list Z) (s : State) :
  self (snd (Daemon.fetch_loop D W (tags_at W offs) s)) = self s
  /\ forall spec,
      fst (Daemon.fetch_loop D W (tags_at W offs) s) = Return (Some spec) ->
      str_truthy spec = true.
Proof.
  revert s; induction offs as [|i offs IH]; intros s.
  - split; [reflexivity|discriminate].
  - rewrite daemon_fetch_loop_step.
    pose proof (daemon_fetch_body_self D W
                  {| self := self s;
                     proc := log (ev_last_modified_commit (path (self s)) (Some i))
                                 (proc s) |}
                  (last_modified_commit W (path (self s)) (Some i))) as S.
    pose proof (daemon_fetch_body_returns D W
                  {| self := self s;
                     proc := log (ev_last_modified_commit (path (self s)) (Some i))
                                 (proc s) |}
                  (last_modified_commit W (path (self s)) (Some i))) as R.
    destruct (Daemon.fetch_body D W _ _) as [[[v|]|e] s']; cbn [fst snd self] in *.
    + split; [exact S|]. intros spec [= ->].
      destruct (R (Some spec) eq_refl) as [[= ->] _]. apply spec_truthy.
    + destruct (IH s') as [A B]. split; [rewrite A; exact S|exact B].
    + split; [exact S|discriminate].
Qed.

(** On a class that holds a client the daemon is not asked. *)
Lemma daemon_fetch_body_stored (D : Daemon.t) (W : World) (s : State)
      (tag0 : string) (c : DockerClient) :
  _docker (proc s) = Some c ->
  Daemon.fetch_body D W tag0 s = fetch_body W tag0 s
  /\ _docker (proc (snd (fetch_body W tag0 s))) = Some c.
Proof.
  intros E. rewrite daemon_fetch_body_run, fetch_body_run. cbv zeta.
  set (p2 := log _ (proc s)).
  assert (E2 : _docker p2 = Some c) by exact E.
  rewrite (acquire_stored D p2 c E2).
  destruct (ensure_docker_idem p2 c E2) as [A B]. rewrite A, B.
  split; [reflexivity|exact E].
Qed.

Lemma daemon_fetch_loop_stored (D : Daemon.t) (W : World) (offs : list Z)
      (s : State) (c : DockerClient) :
  _docker (proc s) = Some c ->
  Daemon.fetch_loop D W (tags_at W offs) s = fetch_loop W (tags_at W offs) s.
Proof.
  revert s; induction offs as [|i offs IH]; intros s E; [reflexivity|].
  rewrite daemon_fetch_loop_step.
  cbn [tags_at map fetch_loop]. fold (tags_at W offs).
  unfold bind at 2. unfold bind at 2.
  unfold get_self, gitutils_last_modified_commit, bind at 2, emit, ret.
  cbn [self proc]. unfold bind at 1.
  set (s1 := {| self := self s;
                proc := log (ev_last_modified_commit (path (self s)) (Some i))
                            (proc s) |}).
  assert (E1 : _docker (proc s1) = Some c) by exact E.
  destruct (daemon_fetch_body_stored D W s1
              (last_modified_commit W (path (self s)) (Some i)) c E1) as [A B].
  rewrite A.
  destruct (fetch_body W _ s1) as [[[v|]|e] s']; try reflexivity.
  apply IH. exact B.
Qed.

Lemma daemon_fetch_parent_image_stored (D : Daemon.t) (W : World) (s : State)
      (c : DockerClient) :
  _docker (proc s) = Some c ->
  Daemon.fetch_parent_image D W s = fetch_parent_image W s.
Proof.
  intros E. unfold Daemon.fetch_parent_image, fetch_parent_image.
  rewrite get_possible_parent_tags_range.
  apply (daemon_fetch_loop_stored D W (range 1 16) s c E).
Qed.

(** ** With a daemon that answers

    The methods of the first part are these methods with a daemon that
    answers every call. *)

Lemma daemon_up_docker (s : State) : Daemon.docker Daemon.up s = docker s.
Proof. rewrite daemon_docker_run, acquire_up, docker_run. reflexivity. Qed.

Lemma daemon_up_exists_in_registry (W : World) (s : State) :
  Daemon.exists_in_registry Daemon.up W s = exists_in_registry W s.
Proof.
  rewrite daemon_exists_in_registry_run, acquire_up, exists_in_registry_run.
  reflexivity.
Qed.

Lemma daemon_up_fetch_body (W : World) (s : State) (tag0 : string) :
  Daemon.fetch_body Daemon.up W tag0 s = fetch_body W tag0 s.
Proof.
  rewrite daemon_fetch_body_run, fetch_body_run. cbv zeta.
  rewrite acquire_up. reflexivity.
Qed.

Lemma daemon_up_fetch_loop (W : World) (g : list (M string)) (s : State) :
  Daemon.fetch_loop Daemon.up W g s = fetch_loop W g s.
Proof.
  revert s; induction g as [|next g IH]; intros s; [reflexivity|].
  cbn [Daemon.fetch_loop fetch_loop]. unfold bind at 1 3.
  destruct (next s) as [[tag0|e] s1]; [|reflexivity].
  unfold bind at 1 2. rewrite daemon_up_fetch_body.
  destruct (fetch_body W tag0 s1) as [[[v|]|e] s2];
    [reflexivity|exact (IH s2)|reflexivity].
Qed.

Lemma daemon_up_fetch_parent_image (W : World) (s : State) :
  Daemon.fetch_parent_image Daemon.up W s = fetch_parent_image W s.
Proof. apply daemon_up_fetch_loop. Qed.

Lemma daemon_up_needs_building (W : World) (b : bool) (cr : option string)
      (s : State) :
  Daemon.needs_building Daemon.up W b cr s = needs_building W b cr s.
Proof.
  unfold Daemon.needs_building, needs_building.
  destruct (b && truthy cr); [reflexivity|].
  destruct (negb (b || truthy cr)); [reflexivity|].
  destruct b; [|reflexivity].
  unfold bind. rewrite daemon_up_exists_in_registry. reflexivity.
Qed.

Lemma daemon_up_build (W : World) (s : State) :
  Daemon.build Daemon.up W s = build W s.
Proof.
  unfold Daemon.build, build. unfold bind at 1 3.
  rewrite daemon_up_fetch_parent_image. reflexivity.
Qed.

Lemma daemon_up_run_op (W : World) (o : operation) (s : State) :
  Daemon.run_op Daemon.up W o s = run_op W o s.
Proof.
  destruct o; cbn [Daemon.run_op run_op]; unfold discard, bind;
    rewrite ?daemon_up_docker, ?daemon_up_exists_in_registry,
      ?daemon_up_fetch_parent_image, ?daemon_up_needs_building;
    try reflexivity.
Qed.

Lemma daemon_build_run (D : Daemon.t) (W : World) (s : State) :
  Daemon.build D W s =
  match Daemon.fetch_parent_image D W s with
  | (Raise e, s1) => (Raise e, s1)
  | (Return found, s1) =>
      let me' := with_cache_from (self s)
                   (match found with
                    | Some spec => [spec]
                    | None => cache_from (r2d (self s))
                    end) in
      (match r2d_build W (r2d me') with
       | Return _ => Return tt
       | Raise msg => Raise (BuildEngineError msg)
       end,
       {| self := me'; proc := log (ev_r2d_build (r2d me')) (proc s1) |})
  end.
Proof.
  unfold Daemon.build. unfold bind at 1.
  pose proof (daemon_fetch_loop_self D W (range 1 16) s) as [S T].
  unfold Daemon.fetch_parent_image in *.
  rewrite get_possible_parent_tags_range in *.
  destruct (Daemon.fetch_loop D W (tags_at W (range 1 16)) s) as [[found|e] s1];
    [|reflexivity].
  cbn [snd fst] in S, T. cbv zeta.
  destruct found as [spec|].
  - cbn [truthy]. rewrite (T spec eq_refl).
    unfold bind at 1. unfold set_r2d_cache_from. rewrite S.
    unfold self_r2d_build, bind, get_self, emit, call_engine. cbn [self proc].
    destruct (r2d_build W _) as [[]|msg]; reflexivity.
  - cbn [truthy]. rewrite !with_cache_from_same.
    unfold bind at 1, ret at 1.
    unfold self_r2d_build, bind, get_self, emit, call_engine. cbn [self proc].
    rewrite S.
    destruct (r2d_build W _) as [[]|msg]; reflexivity.
Qed.

Lemma daemon_needs_building_self (D : Daemon.t) (W : World) (b : bool)
      (cr : option string) (s : State) :
  self (snd (Daemon.needs_building D W b cr s)) = self s.
Proof.
  unfold Daemon.needs_building.
  destruct b, (truthy cr) eqn:T; cbn [andb orb negb]; try reflexivity.
  - unfold bind. rewrite daemon_exists_in_registry_run.
    destruct (Daemon.acquire D (proc s)) as [[c|e] p'].
    + destruct (get_registry_data W (image_spec (self s))) as [m|e]; [reflexivity|].
      destruct (manifest_absent (Raise e)); reflexivity.
    + destruct (manifest_absent (Raise e)); reflexivity.
  - destruct cr as [c|]; [|discriminate T]. cbn in T. rewrite T. reflexivity.
Qed.

(** Every operation but [build] leaves the instance as it was; [build]
    leaves [r2d.cache_from] as it was or sets it to the one spec the
    probe returned. *)
Lemma daemon_run_op_self (D : Daemon.t) (W : World) (o : operation) (s : State) :
  self (snd (Daemon.run_op D W o s)) = self s
  \/ (o = op_build
      /\ exists spec,
          self (snd (Daemon.run_op D W o s)) = with_cache_from (self s) [spec]).
Proof.
  destruct o; cbn [Daemon.run_op]; rewrite ?discard_self.
  - left. rewrite daemon_docker_run.
    destruct (Daemon.acquire D (proc s)) as [[c|e] p']; reflexivity.
  - left. rewrite daemon_exists_in_registry_run.
    destruct (Daemon.acquire D (proc s)) as [[c|e] p']; reflexivity.
  - left. rewrite get_possible_parent_tags_range, consume_tags_at. reflexivity.
  - left. unfold Daemon.fetch_parent_image. rewrite get_possible_parent_tags_range.
    apply (daemon_fetch_loop_self D W (range 1 16) s).
  - left. apply daemon_needs_building_self.
  - rewrite daemon_build_run.
    pose proof (daemon_fetch_loop_self D W (range 1 16) s) as [A _].
    unfold Daemon.fetch_parent_image. rewrite get_possible_parent_tags_range.
    destruct (Daemon.fetch_loop D W (tags_at W (range 1 16)) s)
      as [[[spec|]|e] s1]; cbn [snd self] in *.
    + right. split; [reflexivity|]. exists spec. reflexivity.
    + left. cbv zeta. cbn [snd self]. apply with_cache_from_same.
    + left. exact A.
  - left. apply push_self.
Qed.

Lemma with_cache_from_twice (me : LocalImage) (l l' : list string) :
  with_cache_from (with_cache_from me l) l' = with_cache_from me l'.
Proof. reflexivity. Qed.

Lemma daemon_run_ops_self (D : Daemon.t) (ops : list (World * operation)) (s : State) :
  exists l, self (Daemon.run_ops D ops s) = with_cache_from (self s) l.
Proof.
  revert s; induction ops as [|[W o] ops IH]; intros s.
  - exists (cache_from (r2d (self s))). cbn. rewrite with_cache_from_same.
    reflexivity.
  - cbn [Daemon.run_ops]. destruct (IH (snd (Daemon.run_op D W o s))) as [l E].
    exists l. rewrite E.
    destruct (daemon_run_op_self D W o s) as [A|[_ [spec A]]]; rewrite A;
      reflexivity.
Qed.

Lemma daemon_run_ops_no_build (D : Daemon.t) (ops : list (World * operation))
      (s : State) :
  forallb (fun wo => negb (is_build (snd wo))) ops = true ->
  self (Daemon.run_ops D ops s) = self s.
Proof.
  revert s; induction ops as [|[W o] ops IH]; intros s H; [reflexivity|].
  cbn [forallb snd] in H. apply andb_prop in H. destruct H as [H1 H2].
  cbn [Daemon.run_ops]. rewrite (IH _ H2).
  destruct (daemon_run_op_self D W o s) as [A|[B _]]; [exact A|].
  subst o. discriminate H1.
Qed.

(** ** Build *)

(** C7: whatever the daemon and the worlds in which the instance was
    constructed and operated on, [build] runs the probe first; an
    error of the probe ends the build there; otherwise the engine is
    invoked once, right after the probe, on a [Repo2Docker] object
    whose build context is the instance's path and whose output spec is
    its [name:tag]; its cache sources are the probe's spec when the
    probe returned one, and otherwise what they were before, which is
    empty as long as no [build] was run on the instance. *)
Theorem C7_build_engine_invocation (D : Daemon.t) (W0 W : World)
        (name0 path0 hsp : string) (p : Process)
        (ops : list (World * operation)) :
  let me0 := fst (LocalImage_init W0 name0 path0 hsp p) in
  let s := Daemon.run_ops D ops (construct W0 name0 path0 hsp p) in
  match Daemon.fetch_parent_image D W s with
  | (Raise e, s1) => Daemon.build D W s = (Raise e, s1)
  | (Return found, s1) =>
      let engine :=
        {| subdir := path0;
           output_image_spec := name0 ++ ":" ++ tag me0;
           user_id := 1000;
           user_name := "jovyan";
           target_repo_dir := "/srv/repo";
           cache_from := match found with
                         | Some spec => [spec]
                         | None => cache_from (r2d (self s))
                         end |} in
      Daemon.build D W s
      = (match r2d_build W engine with
         | Return _ => Return tt
         | Raise msg => Raise (BuildEngineError msg)
         end,
         {| self := with_cache_from (self s) (cache_from engine);
            proc := log (ev_r2d_build engine) (proc s1) |})
      /\ subdir engine = path (self s)
      /\ output_image_spec engine = image_spec (self s)
      /\ (forallb (fun wo => negb (is_build (snd wo))) ops = true ->
          cache_from (r2d (self s)) = [])
  end.
Proof.
  cbv zeta. rewrite daemon_build_run.
  set (s := Daemon.run_ops D ops (construct W0 name0 path0 hsp p)).
  destruct (daemon_run_ops_self D ops (construct W0 name0 path0 hsp p)) as [l E].
  fold s in E.
  pose proof (daemon_run_ops_no_build D ops (construct W0 name0 path0 hsp p)) as N.
  fold s in N.
  destruct (Daemon.fetch_parent_image D W s) as [[found|e] s1]; [|reflexivity].
  cbv zeta. rewrite E.
  cbn [construct self fst LocalImage_init with_cache_from
         r2d cache_from subdir output_image_spec path image_spec].
  split; [destruct found; reflexivity|]. split; [reflexivity|].
  split; [reflexivity|].
  intros H. apply N in H. rewrite E in H.
  apply (f_equal (fun me => cache_from (r2d me))) in H. exact H.
Qed.

(** C7, the stated form refuted: the registry holds [hub:] when the
    instance is first built and nothing when it is built again; the
    second probe returns [None], and the engine is still given the
    hint of the first build. *)
Lemma C7_stale_cache_hint :
  let s1 := snd (Daemon.build Daemon.up world_short_history state_short_history) in
  fst (Daemon.fetch_parent_image Daemon.up world0 s1) = Return None
  /\ map cache_from (builds (trace (proc (snd (Daemon.build Daemon.up world0 s1)))))
     = [["hub:"]; ["hub:"]].
Proof. vm_compute. split; reflexivity. Qed.

(** ** What every operation keeps

    A property of the process that survives the calls without a client,
    reading the [docker] property, and a registry call on the client
    just read, survives every operation. *)
Section Kept.

Variable J : Process -> Prop.

Hypothesis J_plain :
  forall ev p, clients_used [ev] = [] -> J p -> J (log ev p).

Hypothesis J_acquire :
  forall D p, J p -> J (snd (Daemon.acquire D p)).

Hypothesis J_call :
  forall D p c ev,
    J p -> fst (Daemon.acquire D p) = Return c ->
    clients_used [ev] = [c] -> clients_made [ev] = [] ->
    J (log ev (snd (Daemon.acquire D p))).

Lemma kept_docker (D : Daemon.t) (s : State) :
  J (proc s) -> J (proc (snd (Daemon.docker D s))).
Proof.
  intros H. rewrite daemon_docker_run.
  pose proof (J_acquire D (proc s) H) as A.
  destruct (Daemon.acquire D (proc s)) as [[c|e] p']; exact A.
Qed.

Lemma kept_exists_in_registry (D : Daemon.t) (W : World) (s : State) :
  J (proc s) -> J (proc (snd (Daemon.exists_in_registry D W s))).
Proof.
  intros H. rewrite daemon_exists_in_registry_run.
  pose proof (J_acquire D (proc s) H) as A.
  pose proof (fun c => J_call D (proc s) c
                         (ev_get_registry_data c (image_spec (self s))) H) as B.
  destruct (Daemon.acquire D (proc s)) as [[c|e] p']; cbn [fst snd proc] in *.
  - apply (B c); reflexivity.
  - exact A.
Qed.

Lemma kept_fetch_body (D : Daemon.t) (W : World) (s : State) (tag0 : string) :
  J (proc s) -> J (proc (snd (Daemon.fetch_body D W tag0 s))).
Proof.
  intros H. rewrite daemon_fetch_body_run. cbv zeta.
  set (p2 := log _ (proc s)).
  assert (H2 : J p2) by (apply J_plain; [reflexivity|exact H]).
  pose proof (J_acquire D p2 H2) as A.
  pose proof (fun c => J_call D p2 c
                         (ev_pull c (name (self s) ++ ":" ++ tag0)) H2) as B.
  destruct (Daemon.acquire D p2) as [[c|e] p']; cbn [fst snd proc] in *.
  - apply (B c); reflexivity.
  - exact A.
Qed.

Lemma kept_fetch_loop (D : Daemon.t) (W : World) (offs : list Z) (s : State) :
  J (proc s) -> J (proc (snd (Daemon.fetch_loop D W (tags_at W offs) s))).
Proof.
  revert s; induction offs as [|i offs IH]; intros s H; [exact H|].
  rewrite daemon_fetch_loop_step.
  set (s1 := {| self := self s;
                proc := log (ev_last_modified_commit (path (self s)) (Some i))
                            (proc s) |}).
  assert (H1 : J (proc s1)) by (apply J_plain; [reflexivity|exact H]).
  pose proof (kept_fetch_body D W s1
                (last_modified_commit W (path (self s)) (Some i)) H1) as A.
  destruct (Daemon.fetch_body D W _ s1) as [[[v|]|e] s']; cbn [snd] in *;
    [exact A|apply IH; exact A|exact A].
Qed.

Lemma kept_needs_building (D : Daemon.t) (W : World) (b : bool)
      (cr : option string) (s : State) :
  J (proc s) -> J (proc (snd (Daemon.needs_building D W b cr s))).
Proof.
  intros H. unfold Daemon.needs_building.
  destruct b, (truthy cr) eqn:T; cbn [andb orb negb]; try exact H.
  - pose proof (kept_exists_in_registry D W s H) as A.
    unfold bind. destruct (Daemon.exists_in_registry D W s) as [[x|e] s1];
      exact A.
  - destruct cr as [c|]; [|discriminate T]. cbn in T. rewrite T.
    cbn. apply J_plain; [reflexivity|exact H].
Qed.

Lemma kept_questions (p : Process) (q : string) (offs : list Z) :
  J p ->
  J {| _docker := _docker p;
       from_env_calls := from_env_calls p;
       trace := trace p ++ map (fun i => ev_last_modified_commit q (Some i)) offs |}.
Proof.
  revert p; induction offs as [|i offs IH]; intros p H.
  - cbn [map]. rewrite app_nil_r. destruct p; exact H.
  - pose proof (IH (log (ev_last_modified_commit q (Some i)) p)
                   (J_plain (ev_last_modified_commit q (Some i)) p eq_refl H)) as A.
    cbn [log _docker from_env_calls trace] in A.
    rewrite <- app_assoc in A. exact A.
Qed.

Lemma kept_run_op (D : Daemon.t) (W : World) (o : operation) (s : State) :
  J (proc s) -> J (proc (snd (Daemon.run_op D W o s))).
Proof.
  intros H. destruct o; cbn [Daemon.run_op]; rewrite ?discard_self.
  - apply kept_docker. exact H.
  - apply kept_exists_in_registry. exact H.
  - rewrite get_possible_parent_tags_range, consume_tags_at.
    cbn [snd proc]. apply kept_questions. exact H.
  - apply kept_fetch_loop. exact H.
  - apply kept_needs_building. exact H.
  - rewrite daemon_build_run.
    pose proof (kept_fetch_loop D W (range 1 16) s H) as A.
    unfold Daemon.fetch_parent_image. rewrite get_possible_parent_tags_range.
    destruct (Daemon.fetch_loop D W (tags_at W (range 1 16)) s)
      as [[found|e] s1]; cbn [snd] in *; [|exact A].
    cbv zeta. cbn [snd proc]. apply J_plain; [reflexivity|exact A].
  - rewrite push_run. cbn [snd proc]. apply J_plain; [reflexivity|exact H].
Qed.

Lemma kept_run_steps (D : Daemon.t) (steps : list Daemon.step) (p : Process) :
  J p -> J (Daemon.run_steps D steps p).
Proof.
  revert p; induction steps as [|st steps IH]; intros p H; [exact H|].
  unfold Daemon.run_steps. cbn [fold_left].
  fold (Daemon.run_steps D steps (Daemon.run_step D st p)).
  apply IH. destruct st as [W n0 p0 h0|W me o]; cbn [Daemon.run_step].
  - cbn [LocalImage_init snd].
    apply J_plain; [reflexivity|]. apply J_plain; [reflexivity|exact H].
  - apply (kept_run_op D W o {| self := me; proc := p |}). exact H.
Qed.

End Kept.

(** ** The shared docker client *)

Lemma clients_made_of_used (t : list event) :
  clients_used t = [] -> clients_made t = [].
Proof.
  induction t as [|ev t IH]; [reflexivity|]. destruct ev; cbn; try exact IH;
    discriminate.
Qed.

Lemma daemon_one_client_kept (D : Daemon.t) (steps : list Daemon.step) (p : Process) :
  Daemon.one_client p -> Daemon.one_client (Daemon.run_steps D steps p).
Proof.
  apply kept_run_steps.
  - intros ev q U H. unfold Daemon.one_client in *. cbn [log _docker trace].
    rewrite clients_used_app, U, app_nil_r.
    rewrite clients_made_app, (clients_made_of_used [ev] U), app_nil_r.
    exact H.
  - intros D' q H. unfold Daemon.acquire, Daemon.one_client in *.
    destruct (_docker q) as [c|] eqn:E; cbn [snd]; [rewrite E; exact H|].
    destruct (D' (from_env_calls q)) as [e|]; cbn [snd].
    + unfold Daemon.refused. cbn [_docker trace]. rewrite E. exact H.
    + unfold ensure_docker. rewrite E. cbn [_docker trace].
      rewrite clients_made_app, clients_used_app, H,
        (clients_made_of_used _ H).
      cbn. split; [reflexivity|]. repeat constructor.
  - intros D' q c ev H A U M.
    pose proof (acquire_returns D' q c A) as S.
    assert (I : Daemon.one_client (snd (Daemon.acquire D' q))).
    { revert A. unfold Daemon.acquire, Daemon.one_client in *.
      destruct (_docker q) as [c0|] eqn:E; cbn [fst snd].
      - intros _. rewrite E. exact H.
      - destruct (D' (from_env_calls q)) as [e|]; [discriminate|].
        cbn [fst snd]. intros _. unfold ensure_docker. rewrite E.
        cbn [_docker trace].
        rewrite clients_made_app, clients_used_app, H,
          (clients_made_of_used _ H).
        cbn. split; [reflexivity|]. repeat constructor. }
    unfold Daemon.one_client in *. cbn [log _docker trace]. rewrite S in *.
    rewrite clients_made_app, clients_used_app, U, M, app_nil_r.
    destruct I as [I1 I2]. split; [exact I1|].
    apply Forall_app. split; [exact I2|]. repeat constructor.
Qed.

Lemma daemon_stored_kept (D : Daemon.t) (steps : list Daemon.step) (p : Process)
      (c : DockerClient) :
  _docker p = Some c ->
  _docker (Daemon.run_steps D steps p) = Some c
  /\ from_env_calls (Daemon.run_steps D steps p) = from_env_calls p
  /\ clients_made (trace (Daemon.run_steps D steps p)) = clients_made (trace p).
Proof.
  intros E.
  apply (kept_run_steps
           (fun q => _docker q = Some c
                     /\ from_env_calls q = from_env_calls p
                     /\ clients_made (trace q) = clients_made (trace p))).
  - intros ev q U (A & B & C). cbn [log _docker from_env_calls trace].
    rewrite clients_made_app, (clients_made_of_used [ev] U), app_nil_r. auto.
  - intros D' q (A & B & C). rewrite (acquire_stored D' q c A). cbn. auto.
  - intros D' q c' ev (A & B & C) _ _ M. rewrite (acquire_stored D' q c A).
    cbn [snd log _docker from_env_calls trace].
    rewrite clients_made_app, M, app_nil_r. auto.
  - auto.
Qed.

Lemma daemon_docker_accesses_stored (D : Daemon.t) (instances : list LocalImage)
      (p : Process) (c : DockerClient) :
  _docker p = Some c ->
  Daemon.docker_accesses D instances p = (map (fun _ => Return c) instances, p).
Proof.
  intros E. induction instances as [|me rest IH]; [reflexivity|].
  cbn [Daemon.docker_accesses map]. rewrite daemon_docker_run. cbn [proc self].
  rewrite (acquire_stored D p c E). cbn [proc]. rewrite IH. reflexivity.
Qed.

(** C9: reading the [docker] property on a class that holds a client
    returns that client and calls nothing; on a class that holds none
    it calls [docker.from_env()], and either the call returns, and the
    new client is stored on the class and returned, or it raises, and
    the error is raised on with nothing stored.  From the read that
    returns, every later read by any instance returns the same client
    without a call; through any run of constructions and operations a
    stored client stays and no other is made; and a process that
    starts without a client makes at most one, however often the
    daemon refused before. *)
Theorem C9_docker_client_once_made (D : Daemon.t) (me : LocalImage)
        (others : list LocalImage) (steps : list Daemon.step) (p : Process) :
  let first := Daemon.docker D {| self := me; proc := p |} in
  (forall c, _docker p = Some c -> first = (Return c, {| self := me; proc := p |}))
  /\ (_docker p = None -> D (from_env_calls p) = None ->
      first = (Return (from_env_calls p),
               {| self := me;
                  proc := {| _docker := Some (from_env_calls p);
                             from_env_calls := S (from_env_calls p);
                             trace := trace p ++ [ev_from_env (from_env_calls p)] |} |}))
  /\ (forall e, _docker p = None -> D (from_env_calls p) = Some e ->
                first = (Raise (DockerError e),
                         {| self := me;
                            proc := {| _docker := None;
                                       from_env_calls := S (from_env_calls p);
                                       trace := trace p |} |}))
  /\ (forall c, fst first = Return c ->
                Daemon.docker_accesses D others (proc (snd first))
                = (map (fun _ => Return c) others, proc (snd first)))
  /\ (forall c, _docker p = Some c ->
                _docker (Daemon.run_steps D steps p) = Some c
                /\ from_env_calls (Daemon.run_steps D steps p) = from_env_calls p
                /\ clients_made (trace (Daemon.run_steps D steps p))
                   = clients_made (trace p))
  /\ (length (clients_made (trace (Daemon.run_steps D steps fresh_process))) <= 1)%nat.
Proof.
  cbv zeta. rewrite daemon_docker_run. cbn [self proc].
  split; [|split; [|split; [|split; [|split]]]].
  - intros c E. rewrite (acquire_stored D p c E). reflexivity.
  - intros E U. unfold Daemon.acquire, ensure_docker. rewrite E, U. reflexivity.
  - intros e E U. unfold Daemon.acquire, Daemon.refused. rewrite E, U.
    reflexivity.
  - intros c R. pose proof (acquire_returns D p c) as S.
    destruct (Daemon.acquire D p) as [[c'|e] p']; cbn [fst snd proc] in *;
      [|discriminate R].
    injection R as ->. apply daemon_docker_accesses_stored. apply S. reflexivity.
  - intros c E. apply daemon_stored_kept. exact E.
  - assert (I : Daemon.one_client fresh_process) by reflexivity.
    pose proof (daemon_one_client_kept D steps fresh_process I) as K.
    unfold Daemon.one_client in K.
    destruct (_docker (Daemon.run_steps D steps fresh_process)).
    + destruct K as [K _]. rewrite K. cbn. lia.
    + rewrite (clients_made_of_used _ K). cbn. lia.
Qed.

(** C9, the stated form refuted: the daemon refuses the first call of
    [docker.from_env()]; the first read of the property raises and
    stores nothing, and the next read calls [docker.from_env()] again
    and makes the client then. *)
Lemma C9_first_access_refused :
  let first := Daemon.docker daemon_late state0 in
  let second := Daemon.docker daemon_late (snd first) in
  fst first
  = Raise (DockerError (errors.mk errors.DockerException
                                  "Error while fetching server API version"))
  /\ _docker (proc (snd first)) = None
  /\ fst second = Return 1%nat
  /\ from_env_calls (proc (snd second)) = 2%nat
  /\ clients_made (trace (proc (snd second))) = [1%nat].
Proof. vm_compute. repeat split. Qed.

(** X12: whatever the daemon answers and whatever a process does,
    constructing instances and running operations on any of them in
    any worlds, it makes no registry call while the class holds no
    client, and once the class holds one, that is the only client ever
    made and every registry call (manifest queries and pulls alike)
    was made on it. *)
Theorem X12_all_registry_calls_on_one_client (D : Daemon.t)
        (steps : list Daemon.step) :
  let p := Daemon.run_steps D steps fresh_process in
  (_docker p = None /\ clients_used (trace p) = [])
  \/ (exists c,
         _docker p = Some c
         /\ clients_made (trace p) = [c]
         /\ Forall (fun c' => c' = c) (clients_used (trace p))).
Proof.
  cbv zeta.
  assert (I : Daemon.one_client fresh_process) by reflexivity.
  pose proof (daemon_one_client_kept D steps fresh_process I) as K.
  unfold Daemon.one_client in K.
  destruct (_docker (Daemon.run_steps D steps fresh_process)) as [c|].
  - right. exists c. destruct K as [K1 K2]. auto.
  - left. auto.
Qed.

(** ** The probe and the manifest query, whatever the daemon *)

Lemma attempt_stored (W : World) (me : LocalImage) (p : Process) (i : Z)
      (c : DockerClient) :
  _docker p = Some c ->
  trace (attempt W me p i) = (trace p ++ turn_events W me c i)%list
  /\ _docker (attempt W me p i) = Some c
  /\ from_env_calls (attempt W me p i) = from_env_calls p.
Proof.
  intros E. unfold attempt. cbv zeta.
  set (p2 := log (ev_print _) (log _ p)).
  assert (E2 : _docker p2 = Some c) by exact E.
  destruct (ensure_docker_idem p2 c E2) as [A B]. rewrite A, B.
  unfold p2, turn_events. cbn [log trace _docker from_env_calls].
  rewrite <- !app_assoc. auto.
Qed.

Lemma attempts_stored (W : World) (me : LocalImage) (offs : list Z) (p : Process)
      (c : DockerClient) :
  _docker p = Some c ->
  trace (attempts W me offs p)
  = (trace p ++ flat_map (turn_events W me c) offs)%list
  /\ _docker (attempts W me offs p) = Some c
  /\ from_env_calls (attempts W me offs p) = from_env_calls p.
Proof.
  revert p; induction offs as [|i offs IH]; intros p E.
  - cbn. rewrite app_nil_r. auto.
  - unfold attempts. cbn [fold_left]. fold (attempts W me offs (attempt W me p i)).
    destruct (attempt_stored W me p i c E) as (A & B & C).
    destruct (IH (attempt W me p i) B) as (A' & B' & C').
    rewrite A', B', C', A, C. cbn [flat_map]. rewrite <- app_assoc. auto.
Qed.

(** X3: on a class that holds a client, whatever the daemon and the
    world, the calls of the probe are, for the offsets 1 to [k] in
    order with [k] at most 15, the oracle's question for the offset,
    the print and the pull of that candidate on the stored client: one
    pull right after each question and nothing else.  It never asks
    for offset 0 or beyond 15, does not call [docker.from_env()], and
    leaves the instance as it was. *)
Theorem X3_probe_calls_in_order (D : Daemon.t) (W : World) (s : State)
        (c : DockerClient) (H : _docker (proc s) = Some c) :
  let r := Daemon.fetch_parent_image D W s in
  exists k,
    0 <= k <= 15
    /\ trace (proc (snd r))
       = (trace (proc s)
          ++ flat_map (turn_events W (self s) c) (range 1 (k + 1)))%list
    /\ _docker (proc (snd r)) = Some c
    /\ from_env_calls (proc (snd r)) = from_env_calls (proc s)
    /\ self (snd r) = self s.
Proof.
  cbv zeta. rewrite (daemon_fetch_parent_image_stored D W s c H).
  destruct (fetch_parent_image_shape W s) as (k & K & T & _).
  exists k. rewrite T.
  destruct (attempts_stored W (self s) (range 1 (k + 1)) (proc s) c H)
    as (A & B & C).
  split; [lia|]. repeat split; auto.
  unfold fetch_parent_image. rewrite get_possible_parent_tags_range.
  apply (fetch_loop_self W (range 1 16) s).
Qed.

Lemma X3_probe_calls_in_order_witness :
  _docker (proc state_stored) = Some 0%nat
  /\ exists k,
      0 <= k <= 15
      /\ trace (proc (snd (Daemon.fetch_parent_image daemon_late world_short_history
                                                      state_stored)))
         = (trace (proc state_stored)
            ++ flat_map (turn_events world_short_history (self state_stored) 0%nat)
                        (range 1 (k + 1)))%list.
Proof.
  split; [reflexivity|].
  destruct (X3_probe_calls_in_order daemon_late world_short_history state_stored
              0%nat eq_refl) as (k & K & T & _).
  exists k. split; [exact K|exact T].
Defined.




(** X20: [exists_in_registry] with a client at hand (held by the class,
    or made by [docker.from_env()] now and stored) makes one manifest
    query for the instance's [name:tag] on that client, and answers
    [True] exactly when the registry returns a manifest and [False]
    exactly when the manifest is absent.  When [docker.from_env()]
    raises, no query is made and nothing is stored, and the error
    meets the same [except] clauses: [False] for an [ImageNotFound] or
    a manifest-unknown [APIError], raised on otherwise.  In every case
    nothing is pulled and the instance is left as it was. *)
Theorem X20_exists_in_registry_one_query (D : Daemon.t) (W : World) (s : State) :
  let o := get_registry_data W (image_spec (self s)) in
  let r := Daemon.exists_in_registry D W s in
  let k := from_env_calls (proc s) in
  (forall c, _docker (proc s) = Some c ->
             (fst r = Return true <-> manifest_resolves o = true)
             /\ (fst r = Return false <-> manifest_absent o = true)
             /\ proc (snd r)
                = log (ev_get_registry_data c (image_spec (self s))) (proc s))
  /\ (_docker (proc s) = None -> D k = None ->
      (fst r = Return true <-> manifest_resolves o = true)
      /\ (fst r = Return false <-> manifest_absent o = true)
      /\ trace (proc (snd r))
         = (trace (proc s)
            ++ [ev_from_env k; ev_get_registry_data k (image_spec (self s))])%list
      /\ _docker (proc (snd r)) = Some k)
  /\ (forall e, _docker (proc s) = None -> D k = Some e ->
                fst r = (if manifest_absent (Raise e) then Return false
                         else Raise (DockerError e))
                /\ proc (snd r) = Daemon.refused (proc s))
  /\ pulled (trace (proc (snd r))) = pulled (trace (proc s))
  /\ self (snd r) = self s.
Proof.
  cbv zeta. rewrite daemon_exists_in_registry_run.
  assert (Q : forall x : bool,
             match get_registry_data W (image_spec (self s)) with
             | Return m => Return (is_not_None m)
             | Raise e => if manifest_absent (Raise e) then Return false
                          else Raise (DockerError e)
             end = (Return x : result bool)
             <-> (if x then manifest_resolves (get_registry_data W (image_spec (self s)))
                  else manifest_absent (get_registry_data W (image_spec (self s))))
                 = true).
  { intros x. destruct (get_registry_data W (image_spec (self s))) as [[m|]|e].
    - destruct x; cbn; split; congruence.
    - destruct x; cbn; split; congruence.
    - destruct (manifest_absent (Raise e)) eqn:B, x; cbn; split; congruence. }
  split; [|split; [|split; [|split]]].
  - intros c E. rewrite (acquire_stored D (proc s) c E). cbn [fst snd proc].
    split; [apply (Q true)|]. split; [apply (Q false)|reflexivity].
  - intros E U. unfold Daemon.acquire. rewrite E, U. cbn [fst snd proc].
    split; [apply (Q true)|]. split; [apply (Q false)|].
    unfold ensure_docker. rewrite E. cbn [log trace _docker].
    rewrite <- app_assoc. split; reflexivity.
  - intros e E U. unfold Daemon.acquire. rewrite E, U. cbn [fst snd proc].
    split; reflexivity.
  - unfold Daemon.acquire, Daemon.refused, ensure_docker.
    destruct (_docker (proc s)) as [c|]; [|destruct (D (from_env_calls (proc s)))];
      cbn [snd proc log trace]; rewrite ?pulled_app; cbn; rewrite ?app_nil_r;
      reflexivity.
  - destruct (Daemon.acquire D (proc s)) as [[c|e] p']; reflexivity.
Qed.

(** ** [get_config] on any document *)

(** On a config file that parses to a mapping, [Document.get_config] is
    [get_config]. *)
Lemma document_get_config_mapping (W : World) (os : OS) (deployment : string)
      (p : Process) :
  Document.get_config W os (fun q => Document.mapping (yaml_load os q))
                      deployment p
  = get_config W os deployment p.
Proof. reflexivity. Qed.

Lemma construct_not_unbound (W : World) (os : OS) (dp : string)
      (images0 : list dict) (p : Process) (v : string) (config : Config) :
  fst match normalize_paths os dp images0 with
      | Raise e => (Raise e, p)
      | Return images1 =>
          match construct_all W images1 p with
          | (Raise e, p') => (Raise e, p')
          | (Return instances, p') => (Return (Loaded config instances), p')
          end
      end
  = Raise (UnboundLocalError v) -> False.
Proof.
  destruct (normalize_paths os dp images0) as [l1|e] eqn:N.
  - pose proof (construct_all_raises W l1 p) as R.
    destruct (construct_all W l1 p) as [[instances|e] p']; [discriminate|].
    cbn [fst] in *. intros H. destruct (R e eq_refl) as [msg ->].
    discriminate H.
  - apply normalize_paths_raises in N. subst e. discriminate.
Qed.

(** X14: [get_config] fails on its unbound local variable [images]
    exactly when the config file exists and ['images' in config] is
    false: the file parses to a mapping without an [images] key, or to
    a sequence or string that does not contain ['images'].  An empty
    file, which parses to [None], raises [TypeError] instead. *)
Theorem X14_get_config_unbound_iff (W : World) (os : OS)
        (parse : string -> Document.t) (deployment : string) (p : Process) :
  ((exists v, fst (Document.get_config W os parse deployment p)
              = Raise (UnboundLocalError v))
   <-> (path_exists os (config_path_of os deployment) = true
        /\ (parse (config_path_of os deployment) = Document.container false
            \/ exists config,
                parse (config_path_of os deployment) = Document.mapping config
                /\ config_images config = None)))
  /\ (path_exists os (config_path_of os deployment) = true ->
      parse (config_path_of os deployment) = Document.atom ->
      exists msg, Document.get_config W os parse deployment p
                  = (Raise (TypeError msg), p)).
Proof.
  unfold Document.get_config.
  destruct (path_exists os (config_path_of os deployment)); cbn [negb].
  - destruct (parse (config_path_of os deployment)) as [config|[|]|] eqn:P.
    + split; [|intros _ [=]]. split.
      * intros [v H]. split; [reflexivity|]. right. exists config.
        split; [reflexivity|].
        unfold select_images in H.
        destruct (config_images config) as [ic|]; [exfalso|reflexivity].
        destruct (image_name ic).
        -- destruct (image_config_path ic); [|discriminate H].
           revert H. apply construct_not_unbound.
        -- destruct (images ic) as [l|]; [|discriminate H].
           revert H. apply construct_not_unbound.
      * intros [_ [H|[config' [[= <-] H]]]]; [discriminate H|].
        unfold select_images. rewrite H. eexists. reflexivity.
    + split; [|intros _ [=]]. split.
      * intros [v H]. discriminate H.
      * intros [_ [H|[config' [H _]]]]; discriminate H.
    + split; [|intros _ [=]]. split.
      * intros _. auto.
      * intros _. eexists. reflexivity.
    + split.
      * split; [intros [v H]; discriminate H|].
        intros [_ [H|[config' [H _]]]]; discriminate H.
      * intros _ _. eexists. reflexivity.
  - split; [|intros [=]].
    split; [intros [v H]; discriminate H|intros [H _]; discriminate H].
Qed.
